(** * Intake triage server: classification, severity scoring and routing

    A shallow embedding of [mcp_server.py] (the keyword classifier, the
    severity scorer, the router and the triage pipeline) together with the
    properties its specification states about them.

    Conventions of the embedding.
    - A Python [str] is a [string]; its characters are the code points
      0..255, on which [str.lower], the regular-expression class [\s] and
      [str.strip] are written out below.
    - A Python [dict] is an association list in insertion order
      ([dict K A]); that order is observable through [max] and [keys()].
    - A field read with [d.get(key, default)] is an [option]: [None] when
      the configuration document leaves the key out.
    - A tool's answer is a [Response]: the [ok: True] dictionary or the
      [ok: False] error envelope.
    - [load_config()] is the configuration snapshot [Config], the same for
      all the tools of one request; the process environment is the record
      [Env].  The function itself is embedded over a file system given as
      a parameter ([FileSystem]), with POSIX paths.
    - [safe_json_load] of the client is embedded with [json.loads] as a
      parameter.
    - Arguments have the types of the tool signatures ([str], [int],
      [Optional[str]]), so the [isinstance] guards hold by typing. *)

From Stdlib Require Import List String Ascii ZArith NArith QArith Bool Lia.
From Stdlib Require Import Permutation.
Import ListNotations.

Local Open Scope string_scope.
Local Open Scope Z_scope.

(* ------------------------------------------------------------------ *)
(** ** Characters *)

Module Char.

Definition code (c : ascii) : N := N_of_ascii c.

Definition between (lo hi : N) (c : ascii) : bool :=
  ((lo <=? code c) && (code c <=? hi))%N.

(** The class [a-z]. *)
Definition is_lower_alpha (c : ascii) : bool := between 97 122 c.

(** The class [0-9]. *)
Definition is_digit (c : ascii) : bool := between 48 57 c.

(** [\s] of a [str] pattern and the characters [str.strip()] removes:
    TAB..CR, FS..US, SPACE, NEL and NBSP (the whitespace code points
    below 256). *)
Definition is_space (c : ascii) : bool :=
  between 9 13 c || between 28 32 c
  || (code c =? 133)%N || (code c =? 160)%N.

(** [str.lower] on one code point: [A-Z] and the upper-case letters of
    the Latin-1 block (0xC0..0xDE without the multiplication sign) move
    32 places up, every other code point is kept. *)
Definition lower (c : ascii) : ascii :=
  if between 65 90 c
     || (between 192 222 c && negb (code c =? 215)%N)
  then ascii_of_N (code c + 32)
  else c.

(** One replacement step of [re.sub(r"[^a-z0-9\s]", " ", _)]. *)
Definition sub (c : ascii) : ascii :=
  if is_lower_alpha c || is_digit c || is_space c then c else " "%char.

(** A character [normalize_text] can leave in its output. *)
Definition kept (c : ascii) : bool :=
  is_lower_alpha c || is_digit c || is_space c.

End Char.

(* ------------------------------------------------------------------ *)
(** ** Helpers: [normalize_text], substring test, blank test *)

Fixpoint lstrip (l : list ascii) : list ascii :=
  match l with
  | [] => []
  | c :: r => if Char.is_space c then lstrip r else l
  end.

Definition rstrip (l : list ascii) : list ascii := rev (lstrip (rev l)).

(** [str.strip()] *)
Definition strip (l : list ascii) : list ascii := rstrip (lstrip l).

Definition chars (s : string) : list ascii := list_ascii_of_string s.

(** [str.lower()] *)
Definition lower (l : list ascii) : list ascii := map Char.lower l.

(** [re.sub(r"[^a-z0-9\s]", " ", _)]: every character outside the class is
    replaced by one space, one for one. *)
Definition re_sub_non_word (l : list ascii) : list ascii := map Char.sub l.

(** [normalize_text(text)] *)
Definition normalize_text (text : string) : string :=
  string_of_list_ascii (strip (re_sub_non_word (lower (chars text)))).

(** [not text.strip()]: the text is empty or whitespace only. *)
Definition is_blank (text : string) : bool :=
  match strip (chars text) with
  | [] => true
  | _ :: _ => false
  end.

(** [sub in s] on strings. *)
Fixpoint py_in (sub s : string) : bool :=
  prefix sub s
  || match s with
     | EmptyString => false
     | String _ s' => py_in sub s'
     end.

(** Truth value of a string: [bool(s)]. *)
Definition truthy (s : string) : bool :=
  match s with
  | EmptyString => false
  | String _ _ => true
  end.

(** The test both scanners apply to a keyword:
    [kw_norm and kw_norm in normalized]. *)
Definition keyword_matches (normalized kw : string) : bool :=
  let kw_norm := normalize_text kw in
  truthy kw_norm && py_in kw_norm normalized.


(** [error_response(message, code, details)]: the body of the [error]
    field.  Every call site leaves [details] at its default [None]. *)
Record ErrorInfo := {
  err_code : Z;
  err_message : string;
  err_details : option string
}.

(** What a tool returns: [{"ok": True, ...}] or
    [{"ok": False, "error": {...}}]. *)
Inductive Response (A : Type) : Type :=
| Ok (a : A)
| Failed (e : ErrorInfo).
Arguments Ok {A} a.
Arguments Failed {A} e.

Definition error_response {A : Type} (message : string) (code : Z)
  : Response A :=
  Failed {| err_code := code; err_message := message; err_details := None |}.

Definition is_ok {A : Type} (r : Response A) : bool :=
  match r with
  | Ok _ => true
  | Failed _ => false
  end.

Definition invalid_text {A : Type} : Response A :=
  error_response "Invalid input: 'text' must be a non-empty string." 422.

(* ------------------------------------------------------------------ *)
(** ** Dictionaries in insertion order *)

Section Dict.

Context {K A : Type}.
Variable eqb : K -> K -> bool.

Definition dict := list (K * A).

Definition keys (d : dict) : list K := map fst d.
Definition values (d : dict) : list A := map snd d.

(** [d.get(k)] *)
Fixpoint dict_get (k : K) (d : dict) : option A :=
  match d with
  | [] => None
  | (k', a) :: r => if eqb k' k then Some a else dict_get k r
  end.

(** [d[k]] on a [defaultdict] whose default is [dflt], and
    [d.get(k, dflt)]. *)
Definition get_or (dflt : A) (k : K) (d : dict) : A :=
  match dict_get k d with
  | Some a => a
  | None => dflt
  end.

(** [k in d] *)
Definition dict_mem (k : K) (d : dict) : bool :=
  match dict_get k d with
  | Some _ => true
  | None => false
  end.

(** [d[k] = f(d[k])] on a [defaultdict] whose default is [dflt]: an
    existing key keeps its position, a new key goes last. *)
Fixpoint dict_update (dflt : A) (f : A -> A) (k : K) (d : dict) : dict :=
  match d with
  | [] => [(k, f dflt)]
  | (k', a) :: r =>
      if eqb k' k then (k', f a) :: r
      else (k', a) :: dict_update dflt f k r
  end.

End Dict.

Arguments dict : clear implicits.

(** A category: [entry.get("id")], [None] when the entry has no id. *)
Definition Category := option string.

Definition category_eqb (a b : Category) : bool :=
  match a, b with
  | None, None => true
  | Some x, Some y => String.eqb x y
  | _, _ => false
  end.

(* ------------------------------------------------------------------ *)
(** ** Configuration *)

Record TaxonomyEntry := {
  entry_id : Category;               (* entry.get("id") *)
  entry_keywords : list string       (* entry.get("keywords", []) *)
}.

Record SeverityRule := {
  rule_score : option Z;             (* rule.get("score", 0) *)
  rule_keywords : list string        (* rule.get("keywords", []) *)
}.

Record SeverityOverride := {
  min_score : option Z;              (* .get("min_score", 9) *)
  override_destination : option string;
  override_priority : option string
}.

Record RoutingRule := {
  route_category : Category;         (* rule.get("category") *)
  route_threshold : option Z;        (* rule.get("threshold", 0) *)
  route_destination : option string  (* rule.get("destination", default) *)
}.

Record RoutingConfig := {
  default_destination : string;
  severity_override : SeverityOverride;
  routes : list RoutingRule
}.

(** The value of [load_config()]. *)
Record Config := {
  taxonomy : list TaxonomyEntry;
  severity_rules : dict string SeverityRule;
  routing : RoutingConfig
}.

(** [os.getenv] of the two variables [triage_intake] reports. *)
Record Env := {
  ACTIVE_INDUSTRY : option string;
  CONFIG_PATH : option string
}.

Definition getenv (v : option string) (dflt : string) : string :=
  match v with
  | Some s => s
  | None => dflt
  end.

(* ------------------------------------------------------------------ *)
(** ** The two float operations of the classifier

    [scores[best] / total] is a correctly rounded IEEE double and
    [round(_, 2)] rounds the exact value of that double, half to even, to
    a multiple of 1/100.  Both are computed exactly on integers. *)

Module PyFloat.

(** A positive double [mant / 2 ^ expo]. *)
Record t := { mant : Z; expo : Z }.

(** Round-half-even of [num / den] to an integer ([0 < den]). *)
Definition round_half_even (num den : Z) : Z :=
  let q := num / den in
  let r := num mod den in
  if (den <? 2 * r) || ((den =? 2 * r) && Z.odd q) then q + 1 else q.

(** [a / b] for ints [0 < a <= b]: the quotient rounded to 53
    significant bits.  [e] is the exponent with
    [2^52 <= a * 2^e / b < 2^53]. *)
Definition truediv (a b : Z) : t :=
  let e1 := 52 + Z.log2 b - Z.log2 a in
  let e := if 2 ^ 52 * b <=? a * 2 ^ e1 then e1 else e1 + 1 in
  {| mant := round_half_even (a * 2 ^ e) b; expo := e |}.

(** [round(x, 2)], counted in hundredths. *)
Definition round2 (x : t) : Z :=
  round_half_even (100 * mant x) (2 ^ expo x).

(** The float [k / 100] as a rational.  [k |-> float(k/100)] is strictly
    increasing on [0..100] and [float(50/100)] is [0.5], so comparing
    with [1#2] here is comparing the doubles. *)
Definition hundredths (k : Z) : Q := k # 100.

(** [x < y] *)
Definition ltb (x y : Q) : bool := negb (Qle_bool y x).

End PyFloat.

(* ------------------------------------------------------------------ *)
(** ** [classify_intake] *)

Record ClassificationResult := {
  category : Category;
  confidence : Q;
  matched_keywords : list string;
  method : string;
  needs_llm : bool
}.

(** The two [defaultdict]s of the scan. *)
Record ScanState := {
  scores : dict Category Z;
  matched : dict Category (list string)
}.

Definition scan_empty : ScanState := {| scores := []; matched := [] |}.

(** Body of the inner loop, for one keyword of an entry of id [cat]. *)
Definition scan_keyword (normalized_text : string) (cat : Category)
  (st : ScanState) (kw : string) : ScanState :=
  if keyword_matches normalized_text kw then
    {| scores := dict_update category_eqb 0 (fun n => n + 1) cat (scores st);
       matched := dict_update category_eqb [] (fun l => (l ++ [kw])%list) cat
                    (matched st) |}
  else st.

(** Body of the outer loop, for one taxonomy entry. *)
Definition scan_entry (normalized_text : string) (st : ScanState)
  (entry : TaxonomyEntry) : ScanState :=
  fold_left (scan_keyword normalized_text (entry_id entry))
    (entry_keywords entry) st.

Definition scan_taxonomy (normalized_text : string)
  (tax : list TaxonomyEntry) : ScanState :=
  fold_left (scan_entry normalized_text) tax scan_empty.

(** [scores.get(k)] and [scores[k]] for a key of [scores]. *)
Definition score_of (sc : dict Category Z) (k : Category) : Z :=
  match dict_get category_eqb k sc with
  | Some n => n
  | None => 0
  end.

(** [matched[k]] *)
Definition matched_of (m : dict Category (list string)) (k : Category)
  : list string :=
  match dict_get category_eqb k m with
  | Some l => l
  | None => []
  end.

(** The loop of [max(iterable, key=...)]: the running maximum is replaced
    only by a strictly larger key value. *)
Fixpoint max_from {K : Type} (key : K -> Z) (best : K) (rest : list K) : K :=
  match rest with
  | [] => best
  | k :: r => if key best <? key k then max_from key k r
              else max_from key best r
  end.

(** [sum(_)] *)
Definition sum (l : list Z) : Z := fold_left Z.add l 0.

Definition classify_intake (cfg : Config) (text : string)
  : Response ClassificationResult :=
  if is_blank text then invalid_text
  else
    let normalized_text := normalize_text text in
    let st := scan_taxonomy normalized_text (taxonomy cfg) in
    match keys (scores st) with
    | [] =>
        Ok {| category := None;
              confidence := 0;
              matched_keywords := [];
              method := "keyword";
              needs_llm := true |}
    | k :: ks =>
        let best := max_from (score_of (scores st)) k ks in
        let total := sum (values (scores st)) in
        let conf :=
          PyFloat.hundredths
            (PyFloat.round2
               (PyFloat.truediv (score_of (scores st) best) total)) in
        Ok {| category := best;
              confidence := conf;
              matched_keywords := matched_of (matched st) best;
              method := "keyword";
              needs_llm := PyFloat.ltb conf (1 # 2) |}
    end.

(* ------------------------------------------------------------------ *)
(** ** [score_severity] *)

Record SeverityResult := {
  score : Z;
  level : string;
  reason : string
}.

Definition priority_order : list string :=
  ["critical"; "high"; "medium"; "low"].

(** [lvl in priority_order] *)
Definition in_priority_order (lvl : string) : bool :=
  existsb (String.eqb lvl) priority_order.

(** The list [ordered_levels] of the source: the priority levels that are
    keys of [rules], then the other keys of [rules] as declared. *)
Definition ordered_levels (rules : dict string SeverityRule) : list string :=
  (filter (fun lvl => dict_mem String.eqb lvl rules) priority_order
   ++ filter (fun lvl => negb (in_priority_order lvl)) (keys rules))%list.

(** [rules.get(level, {})] *)
Definition rule_of (rules : dict string SeverityRule) (lvl : string)
  : SeverityRule :=
  match dict_get String.eqb lvl rules with
  | Some r => r
  | None => {| rule_score := None; rule_keywords := [] |}
  end.

(** [int(d.get(key, dflt))] for an integer field. *)
Definition int_or (v : option Z) (dflt : Z) : Z :=
  match v with
  | Some z => z
  | None => dflt
  end.

(** [d.get(key, dflt)] for a string field. *)
Definition str_or (v : option string) (dflt : string) : string :=
  match v with
  | Some s => s
  | None => dflt
  end.

(** The inner loop: the first keyword of the rule that matches. *)
Fixpoint first_keyword (normalized : string) (kws : list string)
  : option string :=
  match kws with
  | [] => None
  | kw :: r => if keyword_matches normalized kw then Some kw
               else first_keyword normalized r
  end.

(** The outer loop: it returns at the first level one of whose keywords
    matches. *)
Fixpoint scan_levels (rules : dict string SeverityRule) (normalized : string)
  (levels : list string) : option SeverityResult :=
  match levels with
  | [] => None
  | lvl :: r =>
      let rule := rule_of rules lvl in
      match first_keyword normalized (rule_keywords rule) with
      | Some kw =>
          Some {| score := int_or (rule_score rule) 0;
                  level := lvl;
                  reason := "Matched keyword: '" ++ kw ++ "'" |}
      | None => scan_levels rules normalized r
      end
  end.

Definition score_severity (cfg : Config) (text : string) (cat : Category)
  : Response SeverityResult :=
  if is_blank text then invalid_text
  else
    let rules := severity_rules cfg in
    let normalized := normalize_text text in
    match scan_levels rules normalized (ordered_levels rules) with
    | Some r => Ok r
    | None =>
        if category_eqb cat (Some "emergency") then
          Ok {| score := 9;
                level := "escalated";
                reason := "Emergency category escalation" |}
        else
          Ok {| score := 2;
                level := "low";
                reason := "No severity indicators found" |}
    end.

(* ------------------------------------------------------------------ *)
(** ** [route_case]

    The [score] argument is an integer by type, so the guard on
    [isinstance(score, int)] never fires and the function has no error
    answer of its own. *)

Record RoutingResult := {
  destination : string;
  priority : string;
  status : string
}.

(** The loop over [routes]: it returns at the first rule whose category is
    the given one. *)
Fixpoint route_by_rules (dflt : string) (rules : list RoutingRule)
  (cat : Category) (sc : Z) : RoutingResult :=
  match rules with
  | [] =>
      {| destination := dflt;
         priority := "LOW";
         status := "Unknown category fallback" |}
  | rule :: r =>
      if category_eqb (route_category rule) cat then
        let threshold := int_or (route_threshold rule) 0 in
        let dest := str_or (route_destination rule) dflt in
        if threshold <=? sc then
          {| destination := dest;
             priority := if 7 <=? sc then "HIGH" else "NORMAL";
             status := "Routed via routing.json" |}
        else
          {| destination := dest;
             priority := "LOW";
             status := "Below threshold" |}
      else route_by_rules dflt r cat sc
  end.

Definition route_case (cfg : Config) (cat : Category) (sc : Z)
  : Response RoutingResult :=
  let rt := routing cfg in
  let ovr := severity_override rt in
  if int_or (min_score ovr) 9 <=? sc then
    Ok {| destination := str_or (override_destination ovr)
                           "High_Priority_Queue";
          priority := str_or (override_priority ovr) "HIGH";
          status := "Severity override" |}
  else Ok (route_by_rules (default_destination rt) (routes rt) cat sc).

(* ------------------------------------------------------------------ *)
(** ** [triage_intake]

    The pipeline calls the three tools; to speak about which of them a run
    invokes, a run carries the list of the calls it made, in order. *)

Inductive ToolCall :=
| CallClassify (text : string)
| CallScoreSeverity (text : string) (cat : Category)
| CallRouteCase (cat : Category) (sc : Z).

Definition Traced (A : Type) : Type := A * list ToolCall.

Definition ret {A : Type} (a : A) : Traced A := (a, []).

Definition bind {A B : Type} (m : Traced A) (f : A -> Traced B) : Traced B :=
  let (a, t1) := m in
  let (b, t2) := f a in
  (b, (t1 ++ t2)%list).

(** Calling a tool: its answer, and the call on the record. *)
Definition invoke {A : Type} (c : ToolCall) (answer : A) : Traced A :=
  (answer, [c]).

Notation "x <- m ;; k" := (bind m (fun x => k))
  (at level 61, m at next level, right associativity).

Record TriageSummary := {
  summary_category : string;
  severity_level : string;
  severity_score : Z;
  summary_priority : string;
  summary_destination : string;
  summary_status : string
}.

Record TriageDetails := {
  details_classification : ClassificationResult;
  details_severity : SeverityResult;
  details_routing : RoutingResult
}.

(** The two [ok: True] answers of [triage_intake]; each carries its
    [needs_llm] field. *)
Inductive TriageDecision :=
| Deferred (needs_llm : bool) (message : string)
    (classification : ClassificationResult)
| Resolved (needs_llm : bool) (input active_industry config_path : string)
    (triage_summary : TriageSummary) (details : TriageDetails).

Definition decision_needs_llm (d : TriageDecision) : bool :=
  match d with
  | Deferred b _ _ => b
  | Resolved b _ _ _ _ _ => b
  end.

(** [category or "general_inquiry"] *)
Definition category_or_general (cat : Category) : string :=
  match cat with
  | Some (String c s) => String c s
  | _ => "general_inquiry"
  end.

Section Pipeline.

(** The three tools the pipeline calls, and the environment it reads. *)
Variable classify : string -> Response ClassificationResult.
Variable severity_of : string -> Category -> Response SeverityResult.
Variable route : Category -> Z -> Response RoutingResult.
Variable env : Env.

Definition triage_pipeline (text : string)
  : Traced (Response TriageDecision) :=
  if is_blank text then ret invalid_text
  else
    classification <- invoke (CallClassify text) (classify text) ;;
    match classification with
    | Failed e => ret (Failed e)
    | Ok c =>
        if needs_llm c then
          ret (Ok (Deferred true
                     "Keyword confidence low. LLM should classify category first."
                     c))
        else
          let cat := category c in
          severity <-
            invoke (CallScoreSeverity text cat) (severity_of text cat) ;;
          match severity with
          | Failed e => ret (Failed e)
          | Ok s =>
              let sc := score s in
              routing_answer <- invoke (CallRouteCase cat sc) (route cat sc) ;;
              match routing_answer with
              | Failed e => ret (Failed e)
              | Ok r =>
                  ret (Ok (Resolved false text
                             (getenv (ACTIVE_INDUSTRY env) "healthcare")
                             (getenv (CONFIG_PATH env) "")
                             {| summary_category := category_or_general cat;
                                severity_level := level s;
                                severity_score := sc;
                                summary_priority := priority r;
                                summary_destination := destination r;
                                summary_status := status r |}
                             {| details_classification := c;
                                details_severity := s;
                                details_routing := r |}))
              end
          end
    end.

End Pipeline.

(** [triage_intake(text)]: the pipeline over the three tools of this
    server, all reading the same configuration. *)
Definition triage_intake (env : Env) (cfg : Config) (text : string)
  : Traced (Response TriageDecision) :=
  triage_pipeline (classify_intake cfg) (score_severity cfg) (route_case cfg)
    env text.

(* ------------------------------------------------------------------ *)
(** ** Notions the properties are stated with *)

(** The shape the specification gives to a normalized text: lower-case
    letters, digits and the space character only, no two spaces in a row,
    no space at either end. *)
Module NormalForm.






End NormalForm.

(** Sample configurations, in the shape of the shipped profiles, on which
    the properties are exercised. *)
Module Sample.

Definition env : Env := {| ACTIVE_INDUSTRY := None; CONFIG_PATH := None |}.

Definition queues : RoutingConfig :=
  {| default_destination := "General_Queue";
     severity_override :=
       {| min_score := Some 9;
          override_destination := Some "High_Priority_Queue";
          override_priority := Some "HIGH" |};
     routes :=
       [ {| route_category := Some "billing";
            route_threshold := Some 5;
            route_destination := Some "Billing_Queue" |};
         {| route_category := Some "claims";
            route_threshold := Some 8;
            route_destination := Some "Claims_Queue" |} ] |}.

Definition healthcare : Config :=
  {| taxonomy :=
       [ {| entry_id := Some "emergency";
            entry_keywords := ["chest pain"; "!!!"] |};
         {| entry_id := Some "billing";
            entry_keywords := ["invoice"; "refund"] |} ];
     severity_rules :=
       [ ("low", {| rule_score := Some 1; rule_keywords := ["minor"] |});
         ("critical", {| rule_score := Some 10;
                         rule_keywords := ["difficulty breathing";
                                           "emergency"] |}) ];
     routing := queues |}.

Definition chest_pain : string :=
  "patient reports chest pain and difficulty breathing".

(** The same category id on two entries, the first of which has no
    keyword in the text. *)
Definition repeated_id : Config :=
  {| taxonomy :=
       [ {| entry_id := Some "a"; entry_keywords := ["x"] |};
         {| entry_id := Some "b"; entry_keywords := ["y"] |};
         {| entry_id := Some "a"; entry_keywords := ["y"] |} ];
     severity_rules := [];
     routing := queues |}.

(** A [critical] rule whose only keyword is punctuation. *)
Definition punctuation_rule : Config :=
  {| taxonomy := [];
     severity_rules :=
       [ ("critical", {| rule_score := Some 10; rule_keywords := ["!!!"] |});
         ("low", {| rule_score := Some 1; rule_keywords := ["minor"] |}) ];
     routing := queues |}.

(** A rule with a negative score. *)
Definition negative_score : Config :=
  {| taxonomy := [];
     severity_rules :=
       [ ("credit", {| rule_score := Some (-3);
                       rule_keywords := ["refund"] |}) ];
     routing := queues |}.

End Sample.

(** *** Matches of a text against a taxonomy *)

(** The keywords of an entry that match the normalized text. *)
Definition entry_hits (normalized : string) (e : TaxonomyEntry)
  : list string :=
  filter (keyword_matches normalized) (entry_keywords e).

(** Every match, as (category, keyword), in scanning order. *)
Definition hits (normalized : string) (tax : list TaxonomyEntry)
  : list (Category * string) :=
  flat_map (fun e => map (pair (entry_id e)) (entry_hits normalized e)) tax.

Definition count_category (c : Category) (l : list Category) : Z :=
  Z.of_nat (List.length (filter (fun x => category_eqb x c) l)).

(** Aggregate match count of a category, over all entries with that id. *)
Definition match_count (normalized : string) (tax : list TaxonomyEntry)
  (c : Category) : Z :=
  count_category c (map fst (hits normalized tax)).

(** Number of matches over all categories. *)
Definition total_matches (normalized : string) (tax : list TaxonomyEntry)
  : Z :=
  Z.of_nat (List.length (hits normalized tax)).

(** Each element once, in the order of first occurrence. *)
Fixpoint first_seen (l : list Category) : list Category :=
  match l with
  | [] => []
  | c :: r => c :: filter (fun x => negb (category_eqb x c)) (first_seen r)
  end.

(** The categories of a taxonomy in declaration order. *)
Definition declared_categories (tax : list TaxonomyEntry) : list Category :=
  first_seen (map entry_id tax).

(** The categories with a match, in the order of their first match. *)
Definition scored_categories (normalized : string)
  (tax : list TaxonomyEntry) : list Category :=
  first_seen (map fst (hits normalized tax)).

(** The entries with at least one matching keyword, as declared. *)
Definition entries_with_hit (normalized : string)
  (tax : list TaxonomyEntry) : list TaxonomyEntry :=
  filter (fun e => existsb (keyword_matches normalized) (entry_keywords e))
    tax.

(** The winner as the specification words it: the first category, in
    taxonomy declaration order, whose match count is the maximum. *)
Definition declared_winner (normalized : string) (tax : list TaxonomyEntry)
  : option Category :=
  find (fun c =>
          forallb (fun c' => match_count normalized tax c'
                             <=? match_count normalized tax c)
            (declared_categories tax))
    (declared_categories tax).

(** The confidence the classifier reports for [won] matches out of
    [total]: [round(won / total, 2)]. *)
Definition confidence_of (won total : Z) : Q :=
  PyFloat.hundredths (PyFloat.round2 (PyFloat.truediv won total)).

(** The two dictionaries after the matches [ps] have been recorded. *)
Definition tally (ps : list (Category * string)) (st : ScanState)
  : ScanState :=
  fold_left
    (fun st p =>
       {| scores := dict_update category_eqb 0 (fun n => n + 1) (fst p)
                      (scores st);
          matched := dict_update category_eqb [] (fun l => (l ++ [snd p])%list)
                       (fst p) (matched st) |})
    ps st.

(** The configuration with the keyword [kw] struck from every taxonomy
    entry. *)
Definition without_keyword (kw : string) (cfg : Config) : Config :=
  {| taxonomy :=
       map (fun e =>
              {| entry_id := entry_id e;
                 entry_keywords :=
                   filter (fun k => negb (String.eqb k kw))
                     (entry_keywords e) |})
         (taxonomy cfg);
     severity_rules := severity_rules cfg;
     routing := routing cfg |}.

(** *** Matches of a text against the severity rules *)

(** The rule of level [lvl] has a keyword that matches, by the test of the
    code. *)
Definition level_matches (rules : dict string SeverityRule)
  (normalized lvl : string) : bool :=
  existsb (keyword_matches normalized) (rule_keywords (rule_of rules lvl)).

(** The rule of level [lvl] has a keyword whose normalization is a
    substring of the normalized text, as the specification words the
    test. *)
Definition has_substring_keyword (rules : dict string SeverityRule)
  (normalized lvl : string) : bool :=
  existsb (fun kw => py_in (normalize_text kw) normalized)
    (rule_keywords (rule_of rules lvl)).

(** The first level, in scanning order, with such a keyword. *)
Definition first_substring_level (rules : dict string SeverityRule)
  (normalized : string) : option string :=
  find (has_substring_keyword rules normalized) (ordered_levels rules).

(** The answer for a match of keyword [kw] at level [lvl]. *)
Definition matched_result (rules : dict string SeverityRule)
  (lvl kw : string) : SeverityResult :=
  {| score := int_or (rule_score (rule_of rules lvl)) 0;
     level := lvl;
     reason := "Matched keyword: '" ++ kw ++ "'" |}.

(** The answer when no rule matches. *)
Definition unmatched_result (cat : Category) : SeverityResult :=
  if category_eqb cat (Some "emergency") then
    {| score := 9;
       level := "escalated";
       reason := "Emergency category escalation" |}
  else
    {| score := 2;
       level := "low";
       reason := "No severity indicators found" |}.

(** *** Routing *)

(** The priority of a routed case as the specification words it: HIGH
    from score 7, else NORMAL from the threshold, else LOW. *)
Definition priority_by_score (threshold sc : Z) : string :=
  if 7 <=? sc then "HIGH"
  else if threshold <=? sc then "NORMAL"
  else "LOW".

(** What the scan over a list of levels returns. *)
Inductive scan_outcome (rules : dict string SeverityRule) (n : string)
  (levels : list string) : option SeverityResult -> Prop :=
| scan_hit (l1 : list string) (lvl : string) (l2 : list string)
    (kw : string) :
    levels = (l1 ++ lvl :: l2)%list ->
    (forall x, In x l1 -> level_matches rules n x = false) ->
    In kw (rule_keywords (rule_of rules lvl)) ->
    keyword_matches n kw = true ->
    scan_outcome rules n levels (Some (matched_result rules lvl kw))
| scan_miss :
    (forall x, In x levels -> level_matches rules n x = false) ->
    scan_outcome rules n levels None.

(** The answer of the classifier when no keyword matched. *)
Definition no_match_answer : ClassificationResult :=
  {| category := None;
     confidence := 0;
     matched_keywords := [];
     method := "keyword";
     needs_llm := true |}.

(** The matching keywords of the entries whose id is [c], in taxonomy
    order. *)
Definition category_hits (normalized : string) (tax : list TaxonomyEntry)
  (c : Category) : list string :=
  flat_map (fun e => if category_eqb (entry_id e) c
                     then entry_hits normalized e else [])
    tax.

(* ------------------------------------------------------------------ *)
(** ** [load_config]

    The function reads the environment, three files and writes log
    records.  The file system is a parameter: for each of the three
    documents, what [os.path.exists], [open], the parser and the [.get]s
    on the parsed value come to at a given path.  The parsed values have
    the types of the configuration records. *)

(** [s.strip()] and [s.lower()] on strings. *)
Definition str_strip (s : string) : string :=
  string_of_list_ascii (strip (chars s)).

Definition str_lower (s : string) : string :=
  string_of_list_ascii (lower (chars s)).

(** [path.endswith("/")] *)
Definition ends_with_sep (path : string) : bool :=
  match rev (chars path) with
  | c :: _ => Ascii.eqb c "/"
  | [] => false
  end.

(** One round of the loop of [posixpath.join]: an absolute component
    replaces what came before, otherwise it is appended, with a separator
    unless the path is empty or ends with one. *)
Definition path_join2 (path b : string) : string :=
  if prefix "/" b then b
  else if negb (truthy path) || ends_with_sep path then path ++ b
  else path ++ "/" ++ b.

(** [os.path.join(a, *p)] *)
Definition path_join (a : string) (p : list string) : string :=
  fold_left path_join2 p a.

(** Reading one configuration file. *)
Inductive FileRead (A : Type) : Type :=
| NotFound                  (* os.path.exists(path) is False *)
| LoadFails (e : string)    (* the try block raises; e is str(exception) *)
| Loaded (doc : A).         (* the parsed mapping, [{}] for a falsy value *)
Arguments NotFound {A}.
Arguments LoadFails {A} e.
Arguments Loaded {A} doc.

(** The keys [load_config] reads from the routing document. *)
Record RoutingDoc := {
  doc_default_destination : option string;
  doc_severity_override : option SeverityOverride;
  doc_routes : option (list RoutingRule)
}.

(** The three documents, by path; a taxonomy or severity document is the
    value of its one key, when it has it. *)
Record FileSystem := {
  taxonomy_json : string -> FileRead (option (list TaxonomyEntry));
  severity_yaml : string -> FileRead (option (dict string SeverityRule));
  routing_json : string -> FileRead RoutingDoc
}.

Inductive LogRecord :=
| LogInfo (msg : string)
| LogError (msg : string).

Definition is_error (r : LogRecord) : bool :=
  match r with
  | LogError _ => true
  | LogInfo _ => false
  end.

(** The override [load_config] starts from. *)
Definition default_override : SeverityOverride :=
  {| min_score := Some 9;
     override_destination := Some "High_Priority_Queue";
     override_priority := Some "HIGH" |}.

(** The configuration [load_config] starts from. *)
Definition default_config : Config :=
  {| taxonomy := [];
     severity_rules := [];
     routing := {| default_destination := "General_Queue";
                   severity_override := default_override;
                   routes := [] |} |}.

(** The folder the three files are read from, and the info record. *)
Definition config_folder (base_dir : string) (env : Env)
  : string * LogRecord :=
  let config_path_env := str_strip (getenv (CONFIG_PATH env) "") in
  if truthy config_path_env then
    (config_path_env,
     LogInfo ("Loading config folder from CONFIG_PATH: " ++ config_path_env))
  else
    let industry :=
      str_lower (str_strip (getenv (ACTIVE_INDUSTRY env) "healthcare")) in
    let base_path := path_join base_dir ["config"; industry] in
    (base_path,
     LogInfo ("Loading config for industry='" ++ industry ++ "' from: "
              ++ base_path)).

(** One of the three blocks of [load_config]: the value to store, when
    the block stores one, and the error records it writes. *)
Definition load_file {A B : Type} (name path : string) (read : FileRead A)
  (store : A -> B) : option B * list LogRecord :=
  match read with
  | Loaded doc => (Some (store doc), [])
  | LoadFails e =>
      (None, [LogError ("Failed to load " ++ name ++ ": " ++ e)])
  | NotFound =>
      (None, [LogError (name ++ " not found at: " ++ path)])
  end.

(** [d.get(key, dflt)] for a value of any type. *)
Definition get_default {A : Type} (v : option A) (dflt : A) : A :=
  match v with
  | Some a => a
  | None => dflt
  end.

(** [load_config()], for a script in directory [base_dir]: the
    configuration and the log records, in the order written. *)
Definition load_config (base_dir : string) (env : Env) (fs : FileSystem)
  : Config * list LogRecord :=
  let (base_path, info) := config_folder base_dir env in
  let taxonomy_path := path_join base_path ["taxonomy.json"] in
  let severity_path := path_join base_path ["severity.yaml"] in
  let routing_path := path_join base_path ["routing.json"] in
  let (tax, log1) :=
    load_file "taxonomy.json" taxonomy_path (taxonomy_json fs taxonomy_path)
      (fun doc => get_default doc []) in
  let (sev, log2) :=
    load_file "severity.yaml" severity_path (severity_yaml fs severity_path)
      (fun doc => get_default doc []) in
  let (rt, log3) :=
    load_file "routing.json" routing_path (routing_json fs routing_path)
      (fun doc =>
         {| default_destination :=
              get_default (doc_default_destination doc) "General_Queue";
            severity_override :=
              get_default (doc_severity_override doc) default_override;
            routes := get_default (doc_routes doc) [] |}) in
  ({| taxonomy := get_default tax (taxonomy default_config);
      severity_rules := get_default sev (severity_rules default_config);
      routing := get_default rt (routing default_config) |},
   (info :: log1 ++ log2 ++ log3)%list).

(** A file from which nothing is loaded. *)
Definition unavailable {A : Type} (r : FileRead A) : bool :=
  match r with
  | Loaded _ => false
  | _ => true
  end.

(** *** The resources *)

(** [get_taxonomy()], [get_severity_rules()], [get_routing_resource()] *)
Definition get_taxonomy (base_dir : string) (env : Env) (fs : FileSystem)
  : list TaxonomyEntry :=
  taxonomy (fst (load_config base_dir env fs)).

Definition get_severity_rules (base_dir : string) (env : Env)
  (fs : FileSystem) : dict string SeverityRule :=
  severity_rules (fst (load_config base_dir env fs)).

Definition get_routing_resource (base_dir : string) (env : Env)
  (fs : FileSystem) : RoutingConfig :=
  routing (fst (load_config base_dir env fs)).

(** A file system for the sample profile: the three documents of
    [Sample.healthcare] in [/srv/config/healthcare], nothing elsewhere. *)
Definition sample_files : FileSystem :=
  {| taxonomy_json := fun p =>
       if String.eqb p "/srv/config/healthcare/taxonomy.json"
       then Loaded (Some (taxonomy Sample.healthcare)) else NotFound;
     severity_yaml := fun p =>
       if String.eqb p "/srv/config/healthcare/severity.yaml"
       then Loaded (Some (severity_rules Sample.healthcare)) else NotFound;
     routing_json := fun p =>
       if String.eqb p "/srv/config/healthcare/routing.json"
       then Loaded {| doc_default_destination := Some "General_Queue";
                      doc_severity_override := None;
                      doc_routes := Some (routes Sample.queues) |}
       else NotFound |}.

(* ------------------------------------------------------------------ *)
(** ** The client: [safe_json_load]

    [json.loads] is a parameter: [None] when it raises. *)

(** [s] without the prefix [pat], when it starts with it. *)
Fixpoint strip_prefix (pat s : list ascii) : option (list ascii) :=
  match pat, s with
  | [], _ => Some s
  | p :: pat', c :: s' =>
      if Ascii.eqb p c then strip_prefix pat' s' else None
  | _ :: _, [] => None
  end.

(** What follows the first occurrence of [pat] in [s]:
    [s.split(pat, 1)[1]], [None] when there is no occurrence (the index
    is out of range). *)
Fixpoint after_first (pat s : list ascii) : option (list ascii) :=
  match strip_prefix pat s with
  | Some rest => Some rest
  | None =>
      match s with
      | [] => None
      | _ :: s' => after_first pat s'
      end
  end.

(** What precedes the last occurrence of [pat] in [s], and [s] itself
    when there is none: [s.rsplit(pat, 1)[0]].  The last occurrence of
    [pat] in [s] is the first occurrence of the reversed [pat] in the
    reversed [s]. *)
Definition before_last (pat s : list ascii) : list ascii :=
  match after_first (rev pat) (rev s) with
  | Some r => rev r
  | None => s
  end.

Definition fence : list ascii := chars "```".

Definition newline : string := String "010" "".

Definition no_newline (s : string) : bool :=
  forallb (fun c => negb (Ascii.eqb "010" c)) (chars s).

Section SafeJsonLoad.

Variable Json : Type.
Variable json_loads : string -> option Json.

(** [safe_json_load(text)]: [None] stands for the [None] of the
    [except] branch. *)
Definition safe_json_load (text : string) : option Json :=
  let t := strip (chars text) in
  match strip_prefix fence t with
  | Some _ =>
      match after_first (chars newline) t with
      | None => None
      | Some rest =>
          json_loads (string_of_list_ascii (strip (before_last fence rest)))
      end
  | None => json_loads (string_of_list_ascii t)
  end.

End SafeJsonLoad.

(** * Properties *)

Local Open Scope list_scope.

(* ------------------------------------------------------------------ *)
(** ** [normalize_text] *)

Lemma sub_kept (c : ascii) : Char.kept (Char.sub c) = true.
Proof.
  unfold Char.sub, Char.kept.
  destruct (Char.is_lower_alpha c || Char.is_digit c || Char.is_space c) eqn:E.
  - exact E.
  - reflexivity.
Qed.

Lemma lstrip_Forall (P : ascii -> Prop) (l : list ascii) :
  Forall P l -> Forall P (lstrip l).
Proof.
  induction 1 as [|c r Hc Hr IH]; simpl.
  - constructor.
  - destruct (Char.is_space c); [exact IH | constructor; assumption].
Qed.

Lemma lstrip_head (l : list ascii) (c : ascii) (r : list ascii) :
  lstrip l = c :: r -> Char.is_space c = false.
Proof.
  induction l as [|a l IH]; simpl; [discriminate|].
  destruct (Char.is_space a) eqn:E; [exact IH|].
  intros H; injection H as -> _; exact E.
Qed.

Lemma lstrip_snoc (l : list ascii) (c : ascii) :
  Char.is_space c = false -> lstrip (l ++ [c]) = lstrip l ++ [c].
Proof.
  intros Hc; induction l as [|a l IH]; simpl.
  - now rewrite Hc.
  - destruct (Char.is_space a); [exact IH | reflexivity].
Qed.

Lemma rstrip_cons (c : ascii) (l : list ascii) :
  Char.is_space c = false -> rstrip (c :: l) = c :: rstrip l.
Proof.
  intros Hc; unfold rstrip; simpl.
  rewrite (lstrip_snoc _ _ Hc), rev_app_distr; reflexivity.
Qed.

Lemma rstrip_Forall (P : ascii -> Prop) (l : list ascii) :
  Forall P l -> Forall P (rstrip l).
Proof.
  intros H; unfold rstrip.
  apply Forall_rev, lstrip_Forall, Forall_rev, H.
Qed.

Lemma rstrip_last (l r : list ascii) (c : ascii) :
  rstrip l = r ++ [c] -> Char.is_space c = false.
Proof.
  unfold rstrip; intros H.
  apply (f_equal (@rev ascii)) in H.
  rewrite rev_involutive, rev_app_distr in H; simpl in H.
  exact (lstrip_head _ _ _ H).
Qed.

Lemma strip_head (l : list ascii) (c : ascii) (r : list ascii) :
  strip l = c :: r -> Char.is_space c = false.
Proof.
  unfold strip.
  destruct (lstrip l) as [|a l'] eqn:E; [discriminate|].
  pose proof (lstrip_head _ _ _ E) as Ha.
  rewrite (rstrip_cons _ _ Ha).
  intros H; injection H as -> _; exact Ha.
Qed.

Lemma chars_normalize_text (text : string) :
  chars (normalize_text text)
  = strip (re_sub_non_word (lower (chars text))).
Proof.
  unfold normalize_text, chars.
  apply list_ascii_of_string_of_list_ascii.
Qed.



(* ------------------------------------------------------------------ *)
(** ** [classify_intake]: the escalation flag *)

Lemma ltb_lt (x y : Q) : PyFloat.ltb x y = true <-> (x < y)%Q.
Proof.
  unfold PyFloat.ltb; rewrite negb_true_iff.
  split.
  - intros H; apply Qnot_le_lt; intros Hle.
    apply Qle_bool_iff in Hle; congruence.
  - intros H; destruct (Qle_bool y x) eqn:E; [|reflexivity].
    apply Qle_bool_iff in E; exfalso; exact (Qlt_not_le _ _ H E).
Qed.

(** On a text that passes validation the classifier answers, and the flag
    of its answer is computed from the confidence of that answer. *)
Lemma classify_intake_flag (cfg : Config) (text : string) :
  is_blank text = false ->
  exists r, classify_intake cfg text = Ok r
            /\ needs_llm r = PyFloat.ltb (confidence r) (1 # 2).
Proof.
  intros Hb; unfold classify_intake; rewrite Hb.
  destruct (keys (scores (scan_taxonomy (normalize_text text) (taxonomy cfg))))
    as [|k ks]; eexists; split; reflexivity.
Qed.

(** C1: on every text that is not blank and for every taxonomy,
    [classify_intake] answers with [needs_llm] true exactly when the
    confidence of the answer is strictly below 0.5; at confidence 0.5 the
    flag is false. *)
Theorem classify_intake_needs_llm_iff (cfg : Config) (text : string) :
  is_blank text = false ->
  exists r, classify_intake cfg text = Ok r
            /\ (needs_llm r = true <-> (confidence r < 1 # 2)%Q)
            /\ ((confidence r == 1 # 2)%Q -> needs_llm r = false).
Proof.
  intros Hb.
  destruct (classify_intake_flag cfg text Hb) as (r & Hr & Hflag).
  exists r; split; [exact Hr|]; rewrite Hflag; split.
  - apply ltb_lt.
  - intros Heq; destruct (PyFloat.ltb (confidence r) (1 # 2)) eqn:E;
      [|reflexivity].
    apply ltb_lt in E; rewrite Heq in E.
    exfalso; exact (Qlt_irrefl _ E).
Qed.

Lemma classify_intake_needs_llm_iff_witness :
  is_blank "refund of an invoice after chest pain" = false
  /\ exists r,
       classify_intake Sample.healthcare
         "refund of an invoice after chest pain" = Ok r
       /\ (needs_llm r = true <-> (confidence r < 1 # 2)%Q)
       /\ ((confidence r == 1 # 2)%Q -> needs_llm r = false).
Proof.
  split; [reflexivity|].
  apply (classify_intake_needs_llm_iff Sample.healthcare
           "refund of an invoice after chest pain").
  reflexivity.
Defined.

(* ------------------------------------------------------------------ *)
(** ** Dictionaries *)

Section DictFacts.

Context {K A : Type}.
Variable eqb : K -> K -> bool.
Hypothesis eqb_eq : forall a b, eqb a b = true <-> a = b.

Lemma eqb_refl' (a : K) : eqb a a = true.
Proof. now apply eqb_eq. Qed.

Lemma eqb_trans_l (a b c : K) : eqb a b = true -> eqb a c = eqb b c.
Proof. intros H; apply eqb_eq in H; now subst. Qed.

Lemma dict_get_update (dflt : A) (f : A -> A) (c k : K) (d : dict K A) :
  dict_get eqb k (dict_update eqb dflt f c d)
  = if eqb c k then Some (f (get_or eqb dflt c d)) else dict_get eqb k d.
Proof.
  unfold get_or; induction d as [|[k' a] r IH]; simpl.
  - reflexivity.
  - destruct (eqb k' c) eqn:Ec; simpl.
    + rewrite (eqb_trans_l _ _ k Ec).
      destruct (eqb c k); reflexivity.
    + rewrite IH.
      destruct (eqb c k) eqn:Eck; [|reflexivity].
      destruct (eqb k' k) eqn:Ek; [|reflexivity].
      apply eqb_eq in Eck, Ek; subst.
      rewrite eqb_refl' in Ec; discriminate.
Qed.

Lemma dict_mem_update (dflt : A) (f : A -> A) (c k : K) (d : dict K A) :
  dict_mem eqb k (dict_update eqb dflt f c d)
  = eqb c k || dict_mem eqb k d.
Proof.
  unfold dict_mem; rewrite dict_get_update.
  destruct (eqb c k); reflexivity.
Qed.

Lemma keys_update (dflt : A) (f : A -> A) (c : K) (d : dict K A) :
  keys (dict_update eqb dflt f c d)
  = if dict_mem eqb c d then keys d else keys d ++ [c].
Proof.
  unfold dict_mem; induction d as [|[k' a] r IH]; simpl.
  - reflexivity.
  - destruct (eqb k' c); simpl; [reflexivity|].
    rewrite IH; destruct (dict_get eqb c r); reflexivity.
Qed.

End DictFacts.

Lemma category_eqb_eq (a b : Category) : category_eqb a b = true <-> a = b.
Proof.
  destruct a as [x|], b as [y|]; simpl; split; intros H;
    try discriminate; try reflexivity.
  - apply String.eqb_eq in H; now subst.
  - injection H as ->; apply String.eqb_refl.
Qed.

Lemma category_eqb_sym (a b : Category) : category_eqb a b = category_eqb b a.
Proof.
  destruct a as [x|], b as [y|]; simpl; try reflexivity.
  apply String.eqb_sym.
Qed.

Lemma category_eqb_neq (a b : Category) : category_eqb a b = false <-> a <> b.
Proof.
  rewrite <- category_eqb_eq; destruct (category_eqb a b); split;
    congruence.
Qed.

Lemma sum_from (l : list Z) (a : Z) : fold_left Z.add l a = a + sum l.
Proof.
  unfold sum; revert a; induction l as [|x l IH]; intros a; simpl.
  - lia.
  - rewrite IH, (IH x); lia.
Qed.

Lemma sum_cons (x : Z) (l : list Z) : sum (x :: l) = x + sum l.
Proof. unfold sum at 1; simpl; apply sum_from. Qed.

Lemma sum_values_update (c : Category) (d : dict Category Z) :
  sum (values (dict_update category_eqb 0 (fun n => n + 1) c d))
  = sum (values d) + 1.
Proof.
  induction d as [|[k' a] r IH]; simpl.
  - reflexivity.
  - destruct (category_eqb k' c); simpl; unfold values in *; simpl.
    + rewrite !sum_cons; lia.
    + rewrite !sum_cons, IH; lia.
Qed.

(* ------------------------------------------------------------------ *)
(** ** The scan of the classifier is a tally of the matches *)

Lemma scan_entry_tally (n : string) (e : TaxonomyEntry) (st : ScanState) :
  scan_entry n st e = tally (map (pair (entry_id e)) (entry_hits n e)) st.
Proof.
  unfold scan_entry, entry_hits, tally.
  revert st; induction (entry_keywords e) as [|kw r IH]; intros st; simpl.
  - reflexivity.
  - unfold scan_keyword at 2.
    destruct (keyword_matches n kw); simpl; apply IH.
Qed.

Lemma scan_taxonomy_tally (n : string) (tax : list TaxonomyEntry) :
  scan_taxonomy n tax = tally (hits n tax) scan_empty.
Proof.
  unfold scan_taxonomy, hits.
  generalize scan_empty as st.
  induction tax as [|e r IH]; intros st; simpl.
  - reflexivity.
  - rewrite IH, scan_entry_tally.
    unfold tally; now rewrite fold_left_app.
Qed.

Lemma tally_snoc (ps : list (Category * string)) (p : Category * string)
  (st : ScanState) :
  tally (ps ++ [p]) st
  = {| scores := dict_update category_eqb 0 (fun n => n + 1) (fst p)
                   (scores (tally ps st));
       matched := dict_update category_eqb [] (fun l => l ++ [snd p])
                    (fst p) (matched (tally ps st)) |}.
Proof. unfold tally; now rewrite fold_left_app. Qed.

Lemma count_category_snoc (k c : Category) (l : list Category) :
  count_category k (l ++ [c])
  = count_category k l + (if category_eqb c k then 1 else 0).
Proof.
  unfold count_category; rewrite filter_app, length_app; simpl.
  destruct (category_eqb c k); simpl; lia.
Qed.

Lemma count_category_nonneg (k : Category) (l : list Category) :
  0 <= count_category k l.
Proof. unfold count_category; lia. Qed.

Lemma score_of_update (c k : Category) (d : dict Category Z) :
  score_of (dict_update category_eqb 0 (fun n => n + 1) c d) k
  = score_of d k + (if category_eqb c k then 1 else 0).
Proof.
  unfold score_of; rewrite (dict_get_update _ category_eqb_eq).
  destruct (category_eqb c k) eqn:E; [|lia].
  apply category_eqb_eq in E; subst; reflexivity.
Qed.

Lemma tally_score_of (ps : list (Category * string)) (k : Category) :
  score_of (scores (tally ps scan_empty)) k
  = count_category k (map fst ps).
Proof.
  induction ps as [|p ps IH] using rev_ind.
  - reflexivity.
  - rewrite tally_snoc, map_app; simpl.
    now rewrite score_of_update, count_category_snoc, IH.
Qed.

Lemma tally_mem (ps : list (Category * string)) (k : Category) :
  dict_mem category_eqb k (scores (tally ps scan_empty))
  = existsb (fun c => category_eqb c k) (map fst ps).
Proof.
  induction ps as [|p ps IH] using rev_ind.
  - reflexivity.
  - rewrite tally_snoc, map_app, existsb_app; simpl.
    rewrite (dict_mem_update _ category_eqb_eq), IH, orb_false_r.
    apply orb_comm.
Qed.

Lemma first_seen_snoc (l : list Category) (x : Category) :
  first_seen (l ++ [x])
  = if existsb (fun c => category_eqb c x) l then first_seen l
    else first_seen l ++ [x].
Proof.
  induction l as [|a l IH]; simpl.
  - reflexivity.
  - rewrite IH.
    destruct (existsb (fun c => category_eqb c x) l) eqn:E.
    + now rewrite orb_true_r.
    + rewrite orb_false_r, filter_app; simpl.
      rewrite (category_eqb_sym x a).
      destruct (category_eqb a x); simpl.
      * now rewrite app_nil_r.
      * reflexivity.
Qed.

Lemma tally_keys (ps : list (Category * string)) :
  keys (scores (tally ps scan_empty)) = first_seen (map fst ps).
Proof.
  induction ps as [|p ps IH] using rev_ind.
  - reflexivity.
  - rewrite tally_snoc, map_app; simpl.
    now rewrite keys_update, tally_mem, first_seen_snoc, IH.
Qed.

Lemma tally_sum (ps : list (Category * string)) :
  sum (values (scores (tally ps scan_empty))) = Z.of_nat (List.length ps).
Proof.
  induction ps as [|p ps IH] using rev_ind.
  - reflexivity.
  - rewrite tally_snoc, length_app; simpl.
    rewrite sum_values_update, IH; lia.
Qed.

Lemma tally_matched (ps : list (Category * string)) (k : Category) :
  matched_of (matched (tally ps scan_empty)) k
  = map snd (filter (fun p => category_eqb (fst p) k) ps).
Proof.
  induction ps as [|p ps IH] using rev_ind.
  - reflexivity.
  - rewrite tally_snoc, filter_app, map_app; simpl.
    unfold matched_of in *.
    rewrite (dict_get_update _ category_eqb_eq).
    destruct (category_eqb (fst p) k) eqn:E; simpl.
    + apply category_eqb_eq in E; subst k.
      unfold get_or; now rewrite IH.
    + now rewrite app_nil_r.
Qed.

(** [max]: the result is the first element whose key value is the
    greatest. *)
Lemma max_from_first_greatest {K : Type} (key : K -> Z) (rest : list K) :
  forall (pre : list K) (best : K) (mid : list K),
    (forall x, In x pre -> key x < key best) ->
    (forall x, In x mid -> key x <= key best) ->
    exists l1 l2,
      pre ++ best :: mid ++ rest = l1 ++ max_from key best rest :: l2
      /\ (forall x, In x l1 -> key x < key (max_from key best rest))
      /\ (forall x, In x l2 -> key x <= key (max_from key best rest)).
Proof.
  induction rest as [|k r IH]; intros pre best mid Hpre Hmid; simpl.
  - exists pre, mid; rewrite app_nil_r; auto.
  - destruct (key best <? key k) eqn:E.
    + apply Z.ltb_lt in E.
      destruct (IH (pre ++ best :: mid) k []) as (l1 & l2 & Heq & H1 & H2).
      * intros x Hx; apply in_app_or in Hx as [Hx|[<-|Hx]];
          [specialize (Hpre x Hx) | | specialize (Hmid x Hx)]; lia.
      * intros x [].
      * exists l1, l2; split; [|auto].
        rewrite <- Heq, <- app_assoc; reflexivity.
    + apply Z.ltb_ge in E.
      destruct (IH pre best (mid ++ [k])) as (l1 & l2 & Heq & H1 & H2).
      * exact Hpre.
      * intros x Hx; apply in_app_or in Hx as [Hx|[<-|[]]];
          [exact (Hmid x Hx) | exact E].
      * exists l1, l2; split; [|auto].
        rewrite <- Heq, <- app_assoc; reflexivity.
Qed.

Lemma max_from_spec {K : Type} (key : K -> Z) (k : K) (ks : list K) :
  exists l1 l2,
    k :: ks = l1 ++ max_from key k ks :: l2
    /\ (forall x, In x l1 -> key x < key (max_from key k ks))
    /\ (forall x, In x l2 -> key x <= key (max_from key k ks)).
Proof.
  destruct (max_from_first_greatest key ks [] k [])
    as (l1 & l2 & Heq & H1 & H2); try (intros x []).
  exists l1, l2; auto.
Qed.

(* ------------------------------------------------------------------ *)
(** ** Order of first match and declaration order *)

Lemma first_seen_filter (c : Category) (l : list Category) :
  filter (fun x => negb (category_eqb x c)) (first_seen l)
  = first_seen (filter (fun x => negb (category_eqb x c)) l).
Proof.
  induction l as [|a l IH]; simpl; [reflexivity|].
  destruct (category_eqb a c) eqn:E; simpl.
  - apply category_eqb_eq in E; subst a.
    rewrite <- IH.
    clear IH; induction (first_seen l) as [|b r IHr]; simpl;
      [reflexivity|].
    destruct (category_eqb b c) eqn:Eb; simpl; [exact IHr|].
    rewrite Eb; simpl; now rewrite IHr.
  - f_equal; rewrite <- IH.
    clear IH; induction (first_seen l) as [|b r IHr]; simpl;
      [reflexivity|].
    destruct (category_eqb b a) eqn:Eb, (category_eqb b c) eqn:Ec; simpl;
      rewrite ?Eb, ?Ec; simpl; now rewrite IHr.
Qed.

Lemma filter_all {X : Type} (f : X -> bool) (l : list X) :
  (forall x, In x l -> f x = true) -> filter f l = l.
Proof.
  induction l as [|a l IH]; intros H; simpl; [reflexivity|].
  rewrite (H a (or_introl eq_refl)), IH; [reflexivity|].
  intros x Hx; apply H; now right.
Qed.

Lemma filter_none {X : Type} (f : X -> bool) (l : list X) :
  (forall x, In x l -> f x = false) -> filter f l = [].
Proof.
  induction l as [|a l IH]; intros H; simpl; [reflexivity|].
  rewrite (H a (or_introl eq_refl)); apply IH.
  intros x Hx; apply H; now right.
Qed.

Lemma existsb_filter {X : Type} (f : X -> bool) (l : list X) :
  existsb f l = match filter f l with [] => false | _ :: _ => true end.
Proof.
  induction l as [|a l IH]; simpl; [reflexivity|].
  destruct (f a); simpl; [reflexivity | exact IH].
Qed.

Lemma hits_cons (n : string) (e : TaxonomyEntry) (t : list TaxonomyEntry) :
  map fst (hits n (e :: t))
  = map (fun _ => entry_id e) (entry_hits n e) ++ map fst (hits n t).
Proof.
  unfold hits; simpl; rewrite map_app, map_map; reflexivity.
Qed.

Lemma hit_category_declared (n : string) (tax : list TaxonomyEntry)
  (c : Category) :
  In c (map fst (hits n tax)) -> In c (map entry_id tax).
Proof.
  induction tax as [|e t IH]; [intros []|].
  rewrite hits_cons; intros H; apply in_app_or in H as [H|H].
  - apply in_map_iff in H as (kw & <- & _); now left.
  - right; exact (IH H).
Qed.

(** With pairwise distinct ids, the order of first match is the
    declaration order of the entries that have a match. *)
Lemma scored_categories_distinct (n : string) (tax : list TaxonomyEntry) :
  NoDup (map entry_id tax) ->
  scored_categories n tax = map entry_id (entries_with_hit n tax).
Proof.
  unfold scored_categories, entries_with_hit.
  induction tax as [|e t IH]; intros Hnd; [reflexivity|].
  inversion Hnd as [|x l Hnotin Hnd' [Hx Hl]]; subst.
  rewrite hits_cons; simpl filter.
  rewrite existsb_filter; fold (entry_hits n e).
  destruct (entry_hits n e) as [|kw more]; simpl.
  - exact (IH Hnd').
  - f_equal.
    rewrite first_seen_filter, filter_app.
    rewrite filter_none, filter_all; simpl.
    + exact (IH Hnd').
    + intros c Hc; apply negb_true_iff, category_eqb_neq.
      intros ->; apply Hnotin; exact (hit_category_declared _ _ _ Hc).
    + intros c Hc; apply in_map_iff in Hc as (k & <- & _).
      apply negb_false_iff, category_eqb_eq; reflexivity.
Qed.

Lemma hits_nonempty (n : string) (tax : list TaxonomyEntry)
  (e : TaxonomyEntry) (kw : string) :
  In e tax -> In kw (entry_keywords e) -> keyword_matches n kw = true ->
  hits n tax <> [].
Proof.
  intros He Hkw Hm Hnil.
  assert (Hin : In (entry_id e, kw) (hits n tax)).
  { unfold hits; apply in_flat_map; exists e; split; [exact He|].
    apply in_map, filter_In; auto. }
  rewrite Hnil in Hin; exact Hin.
Qed.

Lemma count_category_pos_in (c : Category) (l : list Category) :
  0 < count_category c l -> In c (first_seen l).
Proof.
  unfold count_category; induction l as [|a l IH]; simpl; [lia|].
  destruct (category_eqb a c) eqn:E.
  - apply category_eqb_eq in E; intros _; now left.
  - intros H; right; apply filter_In; split; [exact (IH H)|].
    now rewrite category_eqb_sym, E.
Qed.

(* ------------------------------------------------------------------ *)
(** ** [classify_intake]: the winning category and its confidence *)

(** With the id [a] on the first and on the third entry and the only
    matches on the second ([b]) and third entry, [a] and [b] both count one
    match; [a] is declared first, the classifier answers [b]. *)
Lemma classify_intake_repeated_id :
  match_count (normalize_text "y") (taxonomy Sample.repeated_id) (Some "a")
  = 1
  /\ match_count (normalize_text "y") (taxonomy Sample.repeated_id) (Some "b")
     = 1
  /\ declared_winner (normalize_text "y") (taxonomy Sample.repeated_id)
     = Some (Some "a")
  /\ exists r, classify_intake Sample.repeated_id "y" = Ok r
               /\ category r = Some "b"
               /\ Some (category r)
                  <> declared_winner (normalize_text "y")
                       (taxonomy Sample.repeated_id).
Proof.
  repeat split; try (vm_compute; reflexivity).
  eexists; split; [vm_compute; reflexivity|].
  split; [reflexivity | vm_compute; discriminate].
Qed.

(** C3, as the code has it: when at least one keyword matches, the
    category of the answer has the greatest aggregate match count; among
    the categories with that count it is the first in the order in which
    the categories obtained their first match, which is the declaration
    order of the taxonomy when the ids of its entries are pairwise
    distinct; the confidence is the winner's count divided by the count of
    all matches, rounded to two decimals. *)
Theorem classify_intake_winner (cfg : Config) (text : string) :
  is_blank text = false ->
  (exists e kw, In e (taxonomy cfg) /\ In kw (entry_keywords e)
                /\ keyword_matches (normalize_text text) kw = true) ->
  exists r l1 l2,
    classify_intake cfg text = Ok r
    /\ scored_categories (normalize_text text) (taxonomy cfg)
       = l1 ++ category r :: l2
    /\ (forall c, In c l1 ->
          match_count (normalize_text text) (taxonomy cfg) c
          < match_count (normalize_text text) (taxonomy cfg) (category r))
    /\ (forall c,
          match_count (normalize_text text) (taxonomy cfg) c
          <= match_count (normalize_text text) (taxonomy cfg) (category r))
    /\ confidence r
       = confidence_of
           (match_count (normalize_text text) (taxonomy cfg) (category r))
           (total_matches (normalize_text text) (taxonomy cfg))
    /\ (NoDup (map entry_id (taxonomy cfg)) ->
        scored_categories (normalize_text text) (taxonomy cfg)
        = map entry_id (entries_with_hit (normalize_text text)
                          (taxonomy cfg))).
Proof.
  intros Hb (e & kw & He & Hkw & Hm).
  pose proof (hits_nonempty _ _ _ _ He Hkw Hm) as Hne.
  set (n := normalize_text text) in *.
  set (tax := taxonomy cfg) in *.
  unfold classify_intake; rewrite Hb.
  fold n; fold tax.
  rewrite scan_taxonomy_tally, tally_keys.
  fold (scored_categories n tax).
  destruct (scored_categories n tax) as [|k ks] eqn:Esc.
  - exfalso; apply Hne.
    unfold scored_categories in Esc.
    destruct (hits n tax) as [|p ps]; [reflexivity | discriminate].
  - set (key := score_of (scores (tally (hits n tax) scan_empty))).
    assert (Hkey : forall c, key c = match_count n tax c).
    { intros c; apply tally_score_of. }
    destruct (max_from_spec key k ks) as (l1 & l2 & Heq & H1 & H2).
    set (w := max_from key k ks) in *.
    eexists; exists l1, l2; split; [reflexivity|]; simpl.
    split; [exact Heq|].
    split; [intros c Hc; rewrite <- !Hkey; exact (H1 c Hc)|].
    split.
    + intros c.
      destruct (Z.eq_dec (match_count n tax c) 0) as [E0|Hpos].
      * rewrite E0; apply count_category_nonneg.
      * assert (Hin : In c (scored_categories n tax)).
        { apply count_category_pos_in.
          pose proof (count_category_nonneg c (map fst (hits n tax))).
          unfold match_count in Hpos; lia. }
        rewrite Esc, Heq in Hin; rewrite <- !Hkey.
        apply in_app_or in Hin as [Hin|[<-|Hin]];
          [specialize (H1 c Hin) | | specialize (H2 c Hin)]; lia.
    + split;
        [|intros Hnd; rewrite <- Esc;
          exact (scored_categories_distinct n tax Hnd)].
      unfold confidence_of; rewrite tally_sum, Hkey; reflexivity.
Qed.

Lemma classify_intake_winner_witness :
  is_blank "refund of an invoice after chest pain" = false
  /\ exists r l1 l2,
       classify_intake Sample.healthcare
         "refund of an invoice after chest pain" = Ok r
       /\ scored_categories
            (normalize_text "refund of an invoice after chest pain")
            (taxonomy Sample.healthcare)
          = l1 ++ category r :: l2
       /\ category r = Some "billing"
       /\ confidence r = (67 # 100)%Q.
Proof.
  split; [reflexivity|].
  destruct (classify_intake_winner Sample.healthcare
              "refund of an invoice after chest pain" eq_refl)
    as (r & l1 & l2 & Hr & Hsc & _).
  - exists {| entry_id := Some "billing";
              entry_keywords := ["invoice"; "refund"] |}, "refund".
    split; [right; left; reflexivity|].
    split; [right; left; reflexivity | reflexivity].
  - exists r, l1, l2; split; [exact Hr|]; split; [exact Hsc|].
    vm_compute in Hr; injection Hr as <-; split; reflexivity.
Defined.

(* ------------------------------------------------------------------ *)
(** ** [classify_intake]: keywords that normalize to nothing *)

Lemma py_in_empty (s : string) : py_in "" s = true.
Proof. destruct s; reflexivity. Qed.

Lemma keyword_matches_empty (normalized kw : string) :
  normalize_text kw = "" -> keyword_matches normalized kw = false.
Proof. unfold keyword_matches; intros ->; reflexivity. Qed.

Lemma hit_matches (n : string) (tax : list TaxonomyEntry) (c : Category)
  (kw : string) :
  In (c, kw) (hits n tax) -> keyword_matches n kw = true.
Proof.
  unfold hits, entry_hits; intros H.
  apply in_flat_map in H as (e & _ & H).
  apply in_map_iff in H as (k & Hk & H).
  injection Hk as _ ->; apply filter_In in H; tauto.
Qed.

Lemma hits_without_keyword (n kw : string) (cfg : Config) :
  keyword_matches n kw = false ->
  hits n (taxonomy (without_keyword kw cfg)) = hits n (taxonomy cfg).
Proof.
  intros Hm; unfold without_keyword; simpl.
  induction (taxonomy cfg) as [|e t IH]; [reflexivity|].
  unfold hits in *; simpl; rewrite IH; f_equal; f_equal.
  unfold entry_hits; simpl.
  induction (entry_keywords e) as [|k r IHr]; [reflexivity|]; simpl.
  destruct (String.eqb k kw) eqn:E; simpl.
  - apply String.eqb_eq in E; subst k; now rewrite Hm.
  - now rewrite IHr.
Qed.

(** C10: a keyword whose normalization is the empty string is a substring
    of every normalized text and yet never counts as a match: scanning it
    leaves the scores and the matched lists of all categories as they
    were, the answer of [classify_intake] is the one the taxonomy without
    that keyword gives, and the keyword is never among the matched
    keywords. *)
Theorem empty_keyword_never_counts (kw : string) :
  normalize_text kw = "" ->
  (forall normalized, py_in (normalize_text kw) normalized = true)
  /\ (forall normalized, keyword_matches normalized kw = false)
  /\ (forall normalized cat st, scan_keyword normalized cat st kw = st)
  /\ (forall cfg text,
        classify_intake (without_keyword kw cfg) text
        = classify_intake cfg text)
  /\ (forall cfg text r,
        classify_intake cfg text = Ok r -> ~ In kw (matched_keywords r)).
Proof.
  intros Hkw.
  split; [intros n; rewrite Hkw; apply py_in_empty|].
  split; [intros n; exact (keyword_matches_empty n kw Hkw)|].
  split.
  { intros n cat st; unfold scan_keyword.
    now rewrite (keyword_matches_empty n kw Hkw). }
  split.
  - intros cfg text; unfold classify_intake.
    rewrite !scan_taxonomy_tally, hits_without_keyword;
      [reflexivity | exact (keyword_matches_empty _ kw Hkw)].
  - intros cfg text r; unfold classify_intake.
    destruct (is_blank text); [discriminate|].
    rewrite scan_taxonomy_tally.
    destruct (keys _) as [|k ks]; intros H; injection H as <-; simpl.
    + intros [].
    + rewrite tally_matched; intros Hin.
      apply in_map_iff in Hin as ([c k'] & Hk & Hin); simpl in Hk; subst k'.
      apply filter_In in Hin as [Hin _].
      apply hit_matches in Hin.
      rewrite (keyword_matches_empty _ kw Hkw) in Hin; discriminate.
Qed.

Lemma empty_keyword_never_counts_witness :
  normalize_text "!!!" = ""
  /\ keyword_matches (normalize_text Sample.chest_pain) "!!!" = false
  /\ classify_intake (without_keyword "!!!" Sample.healthcare)
       Sample.chest_pain
     = classify_intake Sample.healthcare Sample.chest_pain.
Proof.
  split; [reflexivity|].
  destruct (empty_keyword_never_counts "!!!" eq_refl)
    as (_ & Hm & _ & Hc & _).
  split; [apply Hm | apply Hc].
Defined.

(* ------------------------------------------------------------------ *)
(** ** [score_severity] *)

Lemma first_keyword_some (n : string) (kws : list string) (kw : string) :
  first_keyword n kws = Some kw ->
  In kw kws /\ keyword_matches n kw = true.
Proof.
  induction kws as [|k r IH]; simpl; [discriminate|].
  destruct (keyword_matches n k) eqn:E.
  - intros H; injection H as <-; auto.
  - intros H; destruct (IH H); auto.
Qed.

Lemma first_keyword_none (n : string) (kws : list string) :
  first_keyword n kws = None -> existsb (keyword_matches n) kws = false.
Proof.
  induction kws as [|k r IH]; simpl; [reflexivity|].
  destruct (keyword_matches n k); [discriminate | exact IH].
Qed.

Lemma scan_levels_outcome (rules : dict string SeverityRule) (n : string)
  (levels : list string) :
  scan_outcome rules n levels (scan_levels rules n levels).
Proof.
  induction levels as [|lvl r IH]; simpl.
  - apply scan_miss; intros x [].
  - destruct (first_keyword n (rule_keywords (rule_of rules lvl)))
      as [kw|] eqn:E.
    + apply first_keyword_some in E as [Hin Hm].
      exact (scan_hit rules n _ [] lvl r kw eq_refl
               (fun x (H : In x []) => match H with end) Hin Hm).
    + apply first_keyword_none in E.
      destruct IH as [l1 lvl' l2 kw Heq Hpre Hin Hm | Hnone].
      * apply (scan_hit rules n _ (lvl :: l1) lvl' l2 kw);
          [simpl; now rewrite Heq | | exact Hin | exact Hm].
        intros x [<-|Hx]; [exact E | exact (Hpre x Hx)].
      * apply scan_miss; intros x [<-|Hx]; [exact E | exact (Hnone x Hx)].
Qed.

Lemma score_severity_unfold (cfg : Config) (text : string) (cat : Category) :
  is_blank text = false ->
  score_severity cfg text cat
  = Ok match scan_levels (severity_rules cfg) (normalize_text text)
               (ordered_levels (severity_rules cfg)) with
       | Some r => r
       | None => unmatched_result cat
       end.
Proof.
  intros Hb; unfold score_severity, unmatched_result; rewrite Hb.
  destruct (scan_levels _ _ _); [reflexivity|].
  destruct (category_eqb cat (Some "emergency")); reflexivity.
Qed.

(** A [critical] rule whose keyword is punctuation has a keyword whose
    normalization (the empty string) is a substring of the text, and is
    scanned first; the scorer passes over it and answers from [low]. *)
Lemma score_severity_punctuation_rule :
  first_substring_level (severity_rules Sample.punctuation_rule)
    (normalize_text "a minor issue") = Some "critical"
  /\ exists r,
       score_severity Sample.punctuation_rule "a minor issue" None = Ok r
       /\ r = {| score := 1;
                 level := "low";
                 reason := "Matched keyword: 'minor'" |}
       /\ Some (level r)
          <> first_substring_level (severity_rules Sample.punctuation_rule)
               (normalize_text "a minor issue").
Proof.
  split; [vm_compute; reflexivity|].
  eexists; split; [vm_compute; reflexivity|].
  split; [reflexivity | vm_compute; discriminate].
Qed.

(** A text of one space is not empty, and the scorer answers it with the
    error envelope, not with a level. *)
Lemma score_severity_whitespace_text :
  " " <> ""
  /\ score_severity Sample.punctuation_rule " " None
     = Failed {| err_code := 422;
                 err_message :=
                   "Invalid input: 'text' must be a non-empty string.";
                 err_details := None |}.
Proof. split; [discriminate | reflexivity]. Qed.

(** C4, as the code has it: a text that is empty or whitespace only is
    answered with the error envelope of code 422; for every other text
    the levels are scanned in the order critical, high, medium, low
    (those that are declared) and then the other declared levels as
    declared; the answer is taken from the first level of that order one
    of whose keywords has a non-empty normalization that is a substring
    of the normalized text, with the score configured for that level;
    when no level has such a keyword the answer is score 9, level
    escalated, for the category emergency and score 2, level low,
    otherwise. *)
Theorem score_severity_first_level (cfg : Config) (text : string)
  (cat : Category) :
  (is_blank text = true
   /\ score_severity cfg text cat
      = Failed {| err_code := 422;
                  err_message :=
                    "Invalid input: 'text' must be a non-empty string.";
                  err_details := None |})
  \/ (is_blank text = false
      /\ ordered_levels (severity_rules cfg)
         = filter (fun lvl => dict_mem String.eqb lvl (severity_rules cfg))
             ["critical"; "high"; "medium"; "low"]
           ++ filter (fun lvl => negb (in_priority_order lvl))
                (keys (severity_rules cfg))
      /\ ((exists l1 lvl l2 kw,
             ordered_levels (severity_rules cfg) = l1 ++ lvl :: l2
             /\ (forall x, In x l1 ->
                   level_matches (severity_rules cfg) (normalize_text text) x
                   = false)
             /\ In kw (rule_keywords (rule_of (severity_rules cfg) lvl))
             /\ normalize_text kw <> ""
             /\ py_in (normalize_text kw) (normalize_text text) = true
             /\ score_severity cfg text cat
                = Ok {| score :=
                          int_or (rule_score
                                    (rule_of (severity_rules cfg) lvl)) 0;
                        level := lvl;
                        reason := "Matched keyword: '" ++ kw ++ "'" |})
          \/ ((forall x, In x (ordered_levels (severity_rules cfg)) ->
                 level_matches (severity_rules cfg) (normalize_text text) x
                 = false)
              /\ score_severity cfg text cat
                 = Ok (if category_eqb cat (Some "emergency")
                       then {| score := 9;
                               level := "escalated";
                               reason := "Emergency category escalation" |}
                       else {| score := 2;
                               level := "low";
                               reason :=
                                 "No severity indicators found" |})))).
Proof.
  destruct (is_blank text) eqn:Hb.
  { left; split; [reflexivity|].
    unfold score_severity; rewrite Hb; reflexivity. }
  right; split; [reflexivity|]; split; [reflexivity|].
  rewrite (score_severity_unfold cfg text cat Hb).
  destruct (scan_levels_outcome (severity_rules cfg) (normalize_text text)
              (ordered_levels (severity_rules cfg)))
    as [l1 lvl l2 kw Heq Hpre Hin Hm | Hnone].
  - left; exists l1, lvl, l2, kw.
    unfold keyword_matches in Hm; apply andb_true_iff in Hm as [Ht Hsub].
    repeat split; auto.
    intros E; rewrite E in Ht; discriminate.
  - right; split; [exact Hnone | reflexivity].
Qed.

Lemma score_severity_first_level_witness :
  is_blank "a minor emergency" = false
  /\ exists l1 lvl l2 kw,
       ordered_levels (severity_rules Sample.healthcare) = l1 ++ lvl :: l2
       /\ In kw (rule_keywords (rule_of (severity_rules Sample.healthcare)
                                  lvl))
       /\ score_severity Sample.healthcare "a minor emergency" None
          = Ok {| score :=
                    int_or (rule_score
                              (rule_of (severity_rules Sample.healthcare)
                                 lvl)) 0;
                  level := lvl;
                  reason := "Matched keyword: '" ++ kw ++ "'" |}.
Proof.
  split; [reflexivity|].
  destruct (score_severity_first_level Sample.healthcare
              "a minor emergency" None)
    as [[Hb _]|[_ [_ [H|[_ H]]]]].
  - vm_compute in Hb; discriminate Hb.
  - destruct H as (l1 & lvl & l2 & kw & Heq & _ & Hin & _ & _ & H).
    exists l1, lvl, l2, kw; auto.
  - discriminate H.
Defined.

Lemma dict_get_in {A : Type} (k : string) (d : dict string A) (a : A) :
  dict_get String.eqb k d = Some a -> In (k, a) d.
Proof.
  induction d as [|[k' a'] r IH]; simpl; [discriminate|].
  destruct (String.eqb k' k) eqn:E.
  - apply String.eqb_eq in E; subst k'.
    intros H; injection H as ->; now left.
  - intros H; right; exact (IH H).
Qed.

Lemma rule_of_score_nonneg (rules : dict string SeverityRule) (lvl : string) :
  (forall l rule, In (l, rule) rules -> 0 <= int_or (rule_score rule) 0) ->
  0 <= int_or (rule_score (rule_of rules lvl)) 0.
Proof.
  intros H; unfold rule_of.
  destruct (dict_get String.eqb lvl rules) as [r|] eqn:E.
  - exact (H lvl r (dict_get_in _ _ _ E)).
  - simpl; lia.
Qed.

(** A rule set is free to configure a negative score, and the scorer
    returns it. *)
Lemma score_severity_negative :
  exists r, score_severity Sample.negative_score "refund please" None = Ok r
            /\ score r = -3
            /\ score r < 0.
Proof. eexists; repeat split; vm_compute; reflexivity. Qed.

(** C9, as the code has it: a text that is empty or whitespace only is
    answered with the error envelope of code 422 and no score; for every
    other text, every category and every rule set, [score_severity]
    answers with an integer score, which is the score configured for the
    matched level, that is the first level in scanning order with a
    matching keyword (0 when that level configures none), or, when no
    level matches, 9 for the category emergency and 2 otherwise; it is
    non-negative whenever no rule configures a negative score. *)
Theorem score_severity_score_nonneg (cfg : Config) (text : string)
  (cat : Category) :
  (is_blank text = true
   /\ score_severity cfg text cat
      = Failed {| err_code := 422;
                  err_message :=
                    "Invalid input: 'text' must be a non-empty string.";
                  err_details := None |})
  \/ (is_blank text = false
      /\ exists r,
           score_severity cfg text cat = Ok r
           /\ ((exists l1 lvl l2,
                  ordered_levels (severity_rules cfg) = l1 ++ lvl :: l2
                  /\ (forall x, In x l1 ->
                        level_matches (severity_rules cfg)
                          (normalize_text text) x = false)
                  /\ level_matches (severity_rules cfg)
                       (normalize_text text) lvl = true
                  /\ level r = lvl
                  /\ score r
                     = int_or (rule_score (rule_of (severity_rules cfg) lvl))
                         0)
               \/ ((forall x, In x (ordered_levels (severity_rules cfg)) ->
                      level_matches (severity_rules cfg)
                        (normalize_text text) x = false)
                   /\ ((cat = Some "emergency" /\ score r = 9)
                       \/ (cat <> Some "emergency" /\ score r = 2))))
           /\ ((forall lvl rule, In (lvl, rule) (severity_rules cfg) ->
                  0 <= int_or (rule_score rule) 0) ->
               0 <= score r)).
Proof.
  destruct (is_blank text) eqn:Hb.
  { left; split; [reflexivity|].
    unfold score_severity; rewrite Hb; reflexivity. }
  right; split; [reflexivity|].
  rewrite (score_severity_unfold cfg text cat Hb).
  eexists; split; [reflexivity|].
  destruct (scan_levels_outcome (severity_rules cfg) (normalize_text text)
              (ordered_levels (severity_rules cfg)))
    as [l1 lvl l2 kw Heq Hpre Hin Hm | Hnone]; simpl.
  - split.
    + left; exists l1, lvl, l2.
      split; [exact Heq|]; split; [exact Hpre|].
      split; [|split; reflexivity].
      unfold level_matches; apply existsb_exists; exists kw; auto.
    + intros Hcfg; exact (rule_of_score_nonneg _ lvl Hcfg).
  - unfold unmatched_result.
    destruct (category_eqb cat (Some "emergency")) eqn:E; simpl.
    + apply category_eqb_eq in E.
      split; [right; split; [exact Hnone | left; auto] | intros _; lia].
    + apply category_eqb_neq in E.
      split; [right; split; [exact Hnone | right; auto] | intros _; lia].
Qed.

Lemma score_severity_score_nonneg_witness :
  is_blank Sample.chest_pain = false
  /\ exists r,
       score_severity Sample.healthcare Sample.chest_pain (Some "emergency")
       = Ok r
       /\ level r = "critical"
       /\ score r = 10
       /\ 0 <= score r.
Proof.
  split; [reflexivity|].
  destruct (score_severity_score_nonneg Sample.healthcare Sample.chest_pain
              (Some "emergency"))
    as [[Hb _]|(_ & r & Hr & _ & Hpos)].
  - vm_compute in Hb; discriminate Hb.
  - exists r; split; [exact Hr|].
    assert (H0 : 0 <= score r).
    { apply Hpos; intros lvl rule [H|[H|[]]]; injection H as _ <-;
        simpl; lia. }
    vm_compute in Hr; injection Hr as <-.
    repeat split; [lia].
Defined.

(* ------------------------------------------------------------------ *)
(** ** [route_case] *)

(** C5: for every category, absent or not, and every score that reaches
    the minimum score of the severity override, [route_case] answers with
    the destination and the priority of the override and the status of an
    override, whatever the routing rules are. *)
Theorem route_case_severity_override (cfg : Config) (cat : Category)
  (sc : Z) :
  int_or (min_score (severity_override (routing cfg))) 9 <= sc ->
  route_case cfg cat sc
  = Ok {| destination :=
            str_or (override_destination (severity_override (routing cfg)))
              "High_Priority_Queue";
          priority :=
            str_or (override_priority (severity_override (routing cfg)))
              "HIGH";
          status := "Severity override" |}
  /\ forall rules,
       route_case
         {| taxonomy := taxonomy cfg;
            severity_rules := severity_rules cfg;
            routing :=
              {| default_destination := default_destination (routing cfg);
                 severity_override := severity_override (routing cfg);
                 routes := rules |} |} cat sc
       = route_case cfg cat sc.
Proof.
  intros H; apply Z.leb_le in H.
  unfold route_case; simpl; rewrite H; split; reflexivity.
Qed.

Lemma route_case_severity_override_witness :
  int_or (min_score (severity_override (routing Sample.healthcare))) 9 <= 10
  /\ route_case Sample.healthcare None 10
     = Ok {| destination := "High_Priority_Queue";
             priority := "HIGH";
             status := "Severity override" |}.
Proof.
  split; [simpl; lia|].
  apply (route_case_severity_override Sample.healthcare None 10).
  simpl; lia.
Defined.

(** A score of 7 under a rule whose threshold is 8 is below the
    threshold: the router answers LOW where HIGH-from-7 is stated. *)
Lemma route_case_seven_below_threshold :
  exists r,
    route_case Sample.healthcare (Some "claims") 7 = Ok r
    /\ r = {| destination := "Claims_Queue";
              priority := "LOW";
              status := "Below threshold" |}
    /\ priority_by_score 8 7 = "HIGH"
    /\ priority r <> priority_by_score 8 7.
Proof.
  eexists; split; [reflexivity|].
  split; [reflexivity|]; split; [reflexivity | discriminate].
Qed.

(** C6, as the code has it: for a score below the minimum score of the
    severity override, [route_case] answers from the first routing rule,
    in declared order, whose category is the given one: the destination
    is that rule's (the default destination when the rule has none); when
    the score reaches the rule's threshold the priority is HIGH from
    score 7 and NORMAL below 7 and the status is that of a routed case;
    when the score is below the threshold the priority is LOW and the
    status is that of a case below threshold. *)
Theorem route_case_first_rule (cfg : Config) (cat : Category) (sc : Z)
  (l1 : list RoutingRule) (rule : RoutingRule) (l2 : list RoutingRule) :
  sc < int_or (min_score (severity_override (routing cfg))) 9 ->
  routes (routing cfg) = l1 ++ rule :: l2 ->
  (forall x, In x l1 -> route_category x <> cat) ->
  route_category rule = cat ->
  route_case cfg cat sc
  = Ok {| destination :=
            str_or (route_destination rule)
              (default_destination (routing cfg));
          priority :=
            if int_or (route_threshold rule) 0 <=? sc
            then (if 7 <=? sc then "HIGH" else "NORMAL")
            else "LOW";
          status :=
            if int_or (route_threshold rule) 0 <=? sc
            then "Routed via routing.json"
            else "Below threshold" |}.
Proof.
  intros Hlt Heq Hpre Hcat.
  unfold route_case.
  apply Z.leb_gt in Hlt; rewrite Hlt, Heq; f_equal.
  clear Heq; induction l1 as [|x l IH]; simpl.
  - apply category_eqb_eq in Hcat; rewrite Hcat.
    destruct (int_or (route_threshold rule) 0 <=? sc); reflexivity.
  - assert (Hx : category_eqb (route_category x) cat = false)
      by (apply category_eqb_neq, Hpre; now left).
    rewrite Hx; apply IH.
    intros y Hy; apply Hpre; now right.
Qed.

Lemma route_case_first_rule_witness :
  3 < int_or (min_score (severity_override (routing Sample.healthcare))) 9
  /\ route_case Sample.healthcare (Some "billing") 3
     = Ok {| destination := "Billing_Queue";
             priority := "LOW";
             status := "Below threshold" |}.
Proof.
  split; [simpl; lia|].
  apply (route_case_first_rule Sample.healthcare (Some "billing") 3 []
           {| route_category := Some "billing";
              route_threshold := Some 5;
              route_destination := Some "Billing_Queue" |}
           [ {| route_category := Some "claims";
                route_threshold := Some 8;
                route_destination := Some "Claims_Queue" |} ]).
  - simpl; lia.
  - reflexivity.
  - intros x [].
  - reflexivity.
Defined.

Lemma route_case_ok (cfg : Config) (cat : Category) (sc : Z) :
  exists r, route_case cfg cat sc = Ok r.
Proof.
  unfold route_case.
  destruct (int_or (min_score (severity_override (routing cfg))) 9 <=? sc);
    eexists; reflexivity.
Qed.

(* ------------------------------------------------------------------ *)
(** ** [triage_intake] *)

(** C2: on every text that is not blank the classifier answers; when the
    confidence of its answer is at least 0.5 the pipeline calls
    [classify_intake], then [score_severity] on the text and the category,
    then [route_case] on the category and the score, in that order, and
    answers with [needs_llm] false from the three answers; when the
    confidence is below 0.5 it answers with [needs_llm] true and the
    classifier's answer as it is, having called the classifier only. *)
Theorem triage_intake_shapes (env : Env) (cfg : Config) (text : string) :
  is_blank text = false ->
  exists c,
    classify_intake cfg text = Ok c
    /\ ((1 # 2 <= confidence c)%Q ->
        exists s r,
          score_severity cfg text (category c) = Ok s
          /\ route_case cfg (category c) (score s) = Ok r
          /\ triage_intake env cfg text
             = (Ok (Resolved false text
                      (getenv (ACTIVE_INDUSTRY env) "healthcare")
                      (getenv (CONFIG_PATH env) "")
                      {| summary_category :=
                           category_or_general (category c);
                         severity_level := level s;
                         severity_score := score s;
                         summary_priority := priority r;
                         summary_destination := destination r;
                         summary_status := status r |}
                      {| details_classification := c;
                         details_severity := s;
                         details_routing := r |}),
                [CallClassify text;
                 CallScoreSeverity text (category c);
                 CallRouteCase (category c) (score s)]))
    /\ ((confidence c < 1 # 2)%Q ->
        triage_intake env cfg text
        = (Ok (Deferred true
                 "Keyword confidence low. LLM should classify category first."
                 c),
           [CallClassify text])).
Proof.
  intros Hb.
  destruct (classify_intake_flag cfg text Hb) as (c & Hc & Hflag).
  exists c; split; [exact Hc|].
  unfold triage_intake, triage_pipeline, bind, invoke, ret.
  rewrite Hb, Hc; split.
  - intros Hge.
    assert (Hn : needs_llm c = false).
    { rewrite Hflag; destruct (PyFloat.ltb (confidence c) (1 # 2)) eqn:E;
        [|reflexivity].
      apply ltb_lt in E; exfalso; exact (Qle_not_lt _ _ Hge E). }
    rewrite Hn.
    pose proof (score_severity_unfold cfg text (category c) Hb) as Hs.
    set (s := match scan_levels _ _ _ with
              | Some r => r
              | None => _
              end) in Hs.
    destruct (route_case_ok cfg (category c) (score s)) as (r & Hr).
    exists s, r; rewrite Hs, Hr; auto.
  - intros Hlt.
    assert (Hn : needs_llm c = true) by (rewrite Hflag; now apply ltb_lt).
    now rewrite Hn.
Qed.

Lemma triage_intake_shapes_witness :
  is_blank Sample.chest_pain = false
  /\ exists c,
       classify_intake Sample.healthcare Sample.chest_pain = Ok c
       /\ fst (triage_intake Sample.env Sample.healthcare Sample.chest_pain)
          = Ok (Resolved false Sample.chest_pain "healthcare" ""
                  {| summary_category := "emergency";
                     severity_level := "critical";
                     severity_score := 10;
                     summary_priority := "HIGH";
                     summary_destination := "High_Priority_Queue";
                     summary_status := "Severity override" |}
                  {| details_classification := c;
                     details_severity :=
                       {| score := 10;
                          level := "critical";
                          reason := "Matched keyword: 'difficulty breathing'" |};
                     details_routing :=
                       {| destination := "High_Priority_Queue";
                          priority := "HIGH";
                          status := "Severity override" |} |}).
Proof.
  split; [reflexivity|].
  destruct (triage_intake_shapes Sample.env Sample.healthcare
              Sample.chest_pain eq_refl) as (c & Hc & _ & _).
  exists c; split; [exact Hc|].
  vm_compute in Hc; injection Hc as <-; vm_compute; reflexivity.
Defined.

(** [route_case] has no text among its arguments; its one string argument
    is the category, and an empty category is routed, not rejected. *)
Lemma route_case_empty_category :
  is_blank "" = true
  /\ exists r, route_case Sample.healthcare (Some "") 3 = Ok r
               /\ r = {| destination := "General_Queue";
                         priority := "LOW";
                         status := "Unknown category fallback" |}
               /\ is_ok (route_case Sample.healthcare (Some "") 3) = true.
Proof.
  split; [reflexivity|].
  eexists; repeat split; reflexivity.
Qed.

(** C8, as the code has it: each of the three operations that take a
    text ([classify_intake], [score_severity], [triage_intake]) answers an
    empty or whitespace-only text with the error envelope of code 422 and
    nothing else, the pipeline without calling any tool; and an error
    envelope that a tool hands to the pipeline is the pipeline's answer,
    unchanged.  [route_case] takes no text: for every category string,
    blank or not, and every integer score it answers with [ok: True]. *)
Theorem blank_text_rejected (env : Env) (cfg : Config) (text : string)
  (cat : Category) :
  is_blank text = true ->
  classify_intake cfg text
  = Failed {| err_code := 422;
              err_message :=
                "Invalid input: 'text' must be a non-empty string.";
              err_details := None |}
  /\ score_severity cfg text cat
     = Failed {| err_code := 422;
                 err_message :=
                   "Invalid input: 'text' must be a non-empty string.";
                 err_details := None |}
  /\ triage_intake env cfg text
     = (Failed {| err_code := 422;
                  err_message :=
                    "Invalid input: 'text' must be a non-empty string.";
                  err_details := None |}, [])
  /\ (forall classify severity_of route t e,
        is_blank t = false ->
        classify t = Failed e ->
        triage_pipeline classify severity_of route env t
        = (Failed e, [CallClassify t]))
  /\ (forall classify severity_of route t c e,
        is_blank t = false ->
        classify t = Ok c -> needs_llm c = false ->
        severity_of t (category c) = Failed e ->
        fst (triage_pipeline classify severity_of route env t) = Failed e)
  /\ (forall classify severity_of route t c s e,
        is_blank t = false ->
        classify t = Ok c -> needs_llm c = false ->
        severity_of t (category c) = Ok s ->
        route (category c) (score s) = Failed e ->
        fst (triage_pipeline classify severity_of route env t) = Failed e)
  /\ (forall c sc, is_ok (route_case cfg c sc) = true).
Proof.
  intros Hb.
  assert (Hroute : forall c sc, is_ok (route_case cfg c sc) = true).
  { intros c sc; destruct (route_case_ok cfg c sc) as (r & ->).
    reflexivity. }
  unfold classify_intake, score_severity, triage_intake, triage_pipeline,
    bind, invoke, ret.
  rewrite Hb; repeat split; try exact Hroute.
  - intros classify severity_of route t e Ht Hc; now rewrite Ht, Hc.
  - intros classify severity_of route t c e Ht Hc Hn Hs.
    now rewrite Ht, Hc, Hn, Hs.
  - intros classify severity_of route t c s e Ht Hc Hn Hs Hr.
    now rewrite Ht, Hc, Hn, Hs, Hr.
Qed.

Lemma blank_text_rejected_witness :
  is_blank "   " = true
  /\ classify_intake Sample.healthcare "   "
     = Failed {| err_code := 422;
                 err_message :=
                   "Invalid input: 'text' must be a non-empty string.";
                 err_details := None |}
  /\ triage_intake Sample.env Sample.healthcare "   "
     = (Failed {| err_code := 422;
                  err_message :=
                    "Invalid input: 'text' must be a non-empty string.";
                  err_details := None |}, []).
Proof.
  split; [reflexivity|].
  destruct (blank_text_rejected Sample.env Sample.healthcare "   " None
              eq_refl) as (Hc & _ & Ht & _).
  split; [exact Hc | exact Ht].
Defined.

(* ------------------------------------------------------------------ *)
(** ** The worked cases of the specification *)

Example scanning_order_beats_declaration_order :
  score_severity Sample.healthcare "a minor emergency" None
  = Ok {| score := 10;
          level := "critical";
          reason := "Matched keyword: 'emergency'" |}.
Proof. reflexivity. Qed.

Example route_none_score_ten :
  route_case Sample.healthcare None 10
  = Ok {| destination := "High_Priority_Queue";
          priority := "HIGH";
          status := "Severity override" |}.
Proof. reflexivity. Qed.

Example route_billing_three :
  route_case Sample.healthcare (Some "billing") 3
  = Ok {| destination := "Billing_Queue";
          priority := "LOW";
          status := "Below threshold" |}.
Proof. reflexivity. Qed.

Example triage_chest_pain_calls :
  snd (triage_intake Sample.env Sample.healthcare Sample.chest_pain)
  = [CallClassify Sample.chest_pain;
     CallScoreSeverity Sample.chest_pain (Some "emergency");
     CallRouteCase (Some "emergency") 10].
Proof. vm_compute; reflexivity. Qed.

Example triage_unknown_text_deferred :
  triage_intake Sample.env Sample.healthcare "hello there"
  = (Ok (Deferred true
           "Keyword confidence low. LLM should classify category first."
           {| category := None;
              confidence := 0;
              matched_keywords := [];
              method := "keyword";
              needs_llm := true |}),
     [CallClassify "hello there"]).
Proof. vm_compute; reflexivity. Qed.

(** [round(_, 2)] of a few quotients: a tie of the double itself goes to
    the even neighbour (1/8), a quotient whose double lies above the
    decimal tie goes up (1/200). *)
Example confidence_values :
  map (fun p => PyFloat.round2 (PyFloat.truediv (fst p) (snd p)))
    [(1, 3); (2, 3); (1, 2); (1, 1); (1, 8); (3, 8); (1, 200)]
  = [33; 67; 50; 100; 12; 38; 1].
Proof. vm_compute; reflexivity. Qed.

(* ------------------------------------------------------------------ *)
(** ** The confidence lies between 0 and 1 *)

Lemma round_half_even_bounds (num den c : Z) :
  0 < den -> 0 <= num <= c * den ->
  0 <= PyFloat.round_half_even num den <= c.
Proof.
  intros Hden Hnum; unfold PyFloat.round_half_even.
  pose proof (Z.div_mod num den ltac:(lia)) as Hdm.
  pose proof (Z.mod_pos_bound num den Hden) as Hr.
  assert (Hq : 0 <= num / den) by (apply Z.div_pos; lia).
  assert (Hqc : num / den <= c) by (apply Z.div_le_upper_bound; lia).
  destruct ((den <? 2 * (num mod den))
            || ((den =? 2 * (num mod den)) && Z.odd (num / den))) eqn:E;
    [|lia].
  split; [lia|].
  destruct (Z.eq_dec (num / den) c) as [Hc|Hc]; [|lia].
  exfalso.
  assert (Hr0 : num mod den = 0) by nia.
  rewrite Hr0 in E; simpl in E.
  apply orb_true_iff in E as [E|E].
  - apply Z.ltb_lt in E; lia.
  - apply andb_true_iff in E as [E _]; apply Z.eqb_eq in E; lia.
Qed.

Lemma round2_truediv_bounds (a b : Z) :
  0 < a <= b -> 0 <= PyFloat.round2 (PyFloat.truediv a b) <= 100.
Proof.
  intros Hab; unfold PyFloat.round2, PyFloat.truediv.
  cbn [PyFloat.mant PyFloat.expo].
  set (e1 := 52 + Z.log2 b - Z.log2 a).
  set (e := if _ <=? _ then e1 else e1 + 1).
  assert (He : 0 <= e).
  { pose proof (Z.log2_le_mono a b ltac:(lia)).
    subst e e1; destruct (_ <=? _); lia. }
  assert (Hp : 0 < 2 ^ e) by (apply Z.pow_pos_nonneg; lia).
  assert (Hm : 0 <= PyFloat.round_half_even (a * 2 ^ e) b <= 2 ^ e)
    by (apply round_half_even_bounds; nia).
  apply round_half_even_bounds; lia.
Qed.

Lemma first_seen_in (c : Category) (l : list Category) :
  In c (first_seen l) -> In c l.
Proof.
  induction l as [|a l IH]; simpl; [tauto|].
  intros [->|H]; [now left|].
  apply filter_In in H as [H _]; right; exact (IH H).
Qed.

Lemma count_category_in (c : Category) (l : list Category) :
  In c l -> 0 < count_category c l.
Proof.
  unfold count_category; induction l as [|a l IH]; simpl; [tauto|].
  intros [->|H].
  - rewrite (proj2 (category_eqb_eq c c) eq_refl); simpl; lia.
  - specialize (IH H); destruct (category_eqb a c); simpl; lia.
Qed.

Lemma count_category_le_length (c : Category) (l : list Category) :
  count_category c l <= Z.of_nat (List.length l).
Proof.
  unfold count_category.
  pose proof (filter_length_le (fun x => category_eqb x c) l); lia.
Qed.

(** X7: On every text that passes validation the confidence of the answer is
    a number of hundredths between 0 and 1. *)
Lemma classify_intake_confidence_range (cfg : Config) (text : string) :
  is_blank text = false ->
  exists r k,
    classify_intake cfg text = Ok r
    /\ 0 <= k <= 100
    /\ (confidence r == PyFloat.hundredths k)%Q
    /\ (0 <= confidence r <= 1)%Q.
Proof.
  intros Hb; unfold classify_intake; rewrite Hb.
  rewrite scan_taxonomy_tally, tally_keys.
  set (l := map fst (hits (normalize_text text) (taxonomy cfg))).
  destruct (first_seen l) as [|k ks] eqn:E.
  - eexists; exists 0; split; [reflexivity|]; simpl.
    split; [lia|]; split; [reflexivity|].
    split; unfold Qle; simpl; lia.
  - set (key := score_of _).
    destruct (max_from_spec key k ks) as (l1 & l2 & Heq & _).
    set (w := max_from key k ks) in *.
    assert (Hw : In w l).
    { apply first_seen_in; rewrite E, Heq.
      apply in_or_app; right; now left. }
    assert (Hrange : 0 < key w <= Z.of_nat (List.length l)).
    { unfold key; rewrite tally_score_of; fold l; split;
        [now apply count_category_in | apply count_category_le_length]. }
    rewrite tally_sum.
    replace (List.length (hits (normalize_text text) (taxonomy cfg)))
      with (List.length l) by (unfold l; apply length_map).
    pose proof (round2_truediv_bounds _ _ Hrange) as Hk.
    eexists; eexists; split; [reflexivity|]; simpl.
    split; [exact Hk|]; split; [reflexivity|].
    unfold PyFloat.hundredths, Qle; simpl; lia.
Qed.

(* ------------------------------------------------------------------ *)
(** * Further properties *)

(** ** [normalize_text] is idempotent *)

Lemma lower_kept (c : ascii) : Char.kept c = true -> Char.lower c = c.
Proof.
  destruct c as [[] [] [] [] [] [] [] []]; intros H;
    first [reflexivity | discriminate H].
Qed.

Lemma sub_kept_fix (c : ascii) : Char.kept c = true -> Char.sub c = c.
Proof. unfold Char.sub, Char.kept; intros ->; reflexivity. Qed.

Lemma space_kept (c : ascii) : Char.is_space c = true -> Char.kept c = true.
Proof. unfold Char.kept; intros ->; apply orb_true_r. Qed.

Lemma map_fix {X : Type} (f : X -> X) (l : list X) :
  Forall (fun x => f x = x) l -> map f l = l.
Proof. induction 1 as [|x r Hx _ IH]; simpl; congruence. Qed.

Lemma lstrip_fix (l : list ascii) :
  (forall c r, l = c :: r -> Char.is_space c = false) -> lstrip l = l.
Proof.
  destruct l as [|a l]; intros H; simpl; [reflexivity|].
  now rewrite (H a l eq_refl).
Qed.

Lemma rstrip_fix (l : list ascii) :
  (forall c r, l = r ++ [c] -> Char.is_space c = false) -> rstrip l = l.
Proof.
  intros H; unfold rstrip.
  rewrite lstrip_fix; [apply rev_involutive|].
  intros c r Hr; apply (H c (rev r)).
  rewrite <- (rev_involutive l), Hr; reflexivity.
Qed.

Lemma strip_strip (l : list ascii) : strip (strip l) = strip l.
Proof.
  unfold strip at 1.
  rewrite (lstrip_fix (strip l)) by (intros c r; apply strip_head).
  apply rstrip_fix; intros c r; unfold strip; apply rstrip_last.
Qed.

Lemma normalize_text_kept (text : string) :
  Forall (fun c => Char.kept c = true) (chars (normalize_text text)).
Proof.
  rewrite chars_normalize_text; unfold strip, re_sub_non_word.
  apply rstrip_Forall, lstrip_Forall, Forall_forall.
  intros c Hc; apply in_map_iff in Hc as (a & <- & _); apply sub_kept.
Qed.

(** X1: Normalizing a normalized text changes nothing: the keywords of a
    configuration may be stored normalized or not. *)
Theorem normalize_text_idempotent (text : string) :
  normalize_text (normalize_text text) = normalize_text text.
Proof.
  pose proof (normalize_text_kept text) as Hkept.
  unfold normalize_text at 1.
  unfold lower, re_sub_non_word.
  rewrite (map_fix Char.lower), (map_fix Char.sub).
  - rewrite chars_normalize_text, strip_strip; reflexivity.
  - eapply Forall_impl; [|exact Hkept]; intros c; apply sub_kept_fix.
  - eapply Forall_impl; [|exact Hkept]; intros c; apply lower_kept.
Qed.

(** ** Texts that normalize to nothing *)

Lemma lstrip_nil_iff (l : list ascii) :
  lstrip l = [] <-> forallb Char.is_space l = true.
Proof.
  induction l as [|a l IH]; simpl; [tauto|].
  destruct (Char.is_space a); simpl; [exact IH|].
  split; discriminate.
Qed.

Lemma strip_nil_iff (l : list ascii) :
  strip l = [] <-> forallb Char.is_space l = true.
Proof.
  rewrite <- lstrip_nil_iff; unfold strip.
  destruct (lstrip l) as [|a r] eqn:E; [easy|].
  rewrite (rstrip_cons _ _ (lstrip_head _ _ _ E)); split; discriminate.
Qed.

Lemma is_blank_iff (text : string) :
  is_blank text = true <-> forallb Char.is_space (chars text) = true.
Proof.
  rewrite <- strip_nil_iff; unfold is_blank.
  destruct (strip (chars text)); split; congruence.
Qed.

Lemma string_of_list_nil (l : list ascii) :
  string_of_list_ascii l = "" <-> l = [].
Proof. destruct l; simpl; split; congruence. Qed.

Lemma forallb_map' {X Y : Type} (f : X -> Y) (p : Y -> bool) (l : list X) :
  forallb p (map f l) = forallb (fun x => p (f x)) l.
Proof. induction l as [|x l IH]; simpl; congruence. Qed.

Lemma normalize_text_empty_iff (text : string) :
  normalize_text text = ""
  <-> forallb (fun c => Char.is_space (Char.sub (Char.lower c))) (chars text)
      = true.
Proof.
  unfold normalize_text, lower, re_sub_non_word.
  rewrite string_of_list_nil, strip_nil_iff, map_map, forallb_map'.
  reflexivity.
Qed.

Lemma sub_lower_space (c : ascii) :
  Char.is_space c = true -> Char.is_space (Char.sub (Char.lower c)) = true.
Proof.
  intros H; pose proof (space_kept c H) as Hk.
  now rewrite (lower_kept c Hk), (sub_kept_fix c Hk).
Qed.

Lemma keyword_matches_nothing (kw : string) : keyword_matches "" kw = false.
Proof.
  unfold keyword_matches; destruct (normalize_text kw); reflexivity.
Qed.

Lemma hits_nil (n : string) (tax : list TaxonomyEntry) :
  (forall e kw, In e tax -> In kw (entry_keywords e) ->
     keyword_matches n kw = false) ->
  hits n tax = [].
Proof.
  intros H; unfold hits.
  induction tax as [|e t IH]; simpl; [reflexivity|].
  rewrite IH by (intros e' kw He'; apply H; now right).
  unfold entry_hits; rewrite filter_none; [reflexivity|].
  intros kw Hkw; apply (H e kw); [now left | exact Hkw].
Qed.

Lemma classify_intake_hits_nil (cfg : Config) (text : string) :
  is_blank text = false ->
  hits (normalize_text text) (taxonomy cfg) = [] ->
  classify_intake cfg text = Ok no_match_answer.
Proof.
  intros Hb Hn; unfold classify_intake.
  rewrite Hb, scan_taxonomy_tally, Hn; reflexivity.
Qed.

Lemma scan_levels_none (rules : dict string SeverityRule) (n : string)
  (levels : list string) :
  (forall kw, keyword_matches n kw = false) ->
  scan_levels rules n levels = None.
Proof.
  intros H.
  destruct (scan_levels_outcome rules n levels)
    as [l1 lvl l2 kw _ _ _ Hm | _]; [|reflexivity].
  rewrite H in Hm; discriminate.
Qed.

(** X4: A blank text normalizes to the empty string, but so does a text made
    of punctuation, which passes validation.  For such a text no keyword
    of any configuration matches: the classifier answers without a
    category and asks for the LLM, and the scorer answers with its
    fallback. *)
Theorem punctuation_only_text (env : Env) (cfg : Config) (text : string)
  (cat : Category) :
  is_blank text = false ->
  normalize_text text = "" ->
  classify_intake cfg text = Ok no_match_answer
  /\ score_severity cfg text cat = Ok (unmatched_result cat)
  /\ triage_intake env cfg text
     = (Ok (Deferred true
              "Keyword confidence low. LLM should classify category first."
              no_match_answer),
        [CallClassify text]).
Proof.
  intros Hb Hn.
  assert (Hc : classify_intake cfg text = Ok no_match_answer).
  { apply classify_intake_hits_nil; [exact Hb|].
    apply hits_nil; intros e kw _ _; rewrite Hn.
    apply keyword_matches_nothing. }
  split; [exact Hc|]; split.
  - rewrite (score_severity_unfold cfg text cat Hb), Hn.
    rewrite scan_levels_none; [reflexivity|].
    apply keyword_matches_nothing.
  - unfold triage_intake, triage_pipeline, bind, invoke, ret.
    rewrite Hb, Hc; reflexivity.
Qed.

Lemma punctuation_only_text_witness :
  is_blank "?!..." = false
  /\ normalize_text "?!..." = ""
  /\ classify_intake Sample.healthcare "?!..." = Ok no_match_answer
  /\ score_severity Sample.healthcare "?!..." (Some "emergency")
     = Ok (unmatched_result (Some "emergency")).
Proof.
  split; [reflexivity|]; split; [reflexivity|].
  destruct (punctuation_only_text Sample.env Sample.healthcare "?!..."
              (Some "emergency") eq_refl eq_refl) as (Hc & Hs & _).
  split; [exact Hc | exact Hs].
Defined.

(** A text that validation rejects normalizes to the empty string. *)
Lemma blank_text_normalizes_to_empty (text : string) :
  is_blank text = true -> normalize_text text = "".
Proof.
  rewrite is_blank_iff, normalize_text_empty_iff, !forallb_forall.
  intros H c Hc; apply sub_lower_space, H, Hc.
Qed.

(* ------------------------------------------------------------------ *)
(** ** [classify_intake]: the matched keywords *)

Lemma hits_of_category (n : string) (tax : list TaxonomyEntry)
  (k : Category) :
  map snd (filter (fun p => category_eqb (fst p) k) (hits n tax))
  = category_hits n tax k.
Proof.
  unfold hits, category_hits.
  induction tax as [|e t IH]; simpl; [reflexivity|].
  rewrite filter_app, map_app, IH; f_equal.
  destruct (category_eqb (entry_id e) k) eqn:E.
  - rewrite filter_all by (intros p Hp; apply in_map_iff in Hp as (kw & <- & _);
                           exact E).
    rewrite map_map; simpl; apply map_id.
  - rewrite filter_none; [reflexivity|].
    intros p Hp; apply in_map_iff in Hp as (kw & <- & _); exact E.
Qed.

Lemma count_category_hits (n : string) (tax : list TaxonomyEntry)
  (k : Category) :
  Z.of_nat (List.length (category_hits n tax k)) = match_count n tax k.
Proof.
  rewrite <- hits_of_category; unfold match_count, count_category.
  rewrite length_map; f_equal.
  induction (hits n tax) as [|p l IH]; simpl; [reflexivity|].
  destruct (category_eqb (fst p) k); simpl; now rewrite IH.
Qed.

(** The answer of the classifier when at least one keyword matched. *)
Lemma classify_intake_scored (cfg : Config) (text : string) :
  is_blank text = false ->
  hits (normalize_text text) (taxonomy cfg) <> [] ->
  exists r,
    classify_intake cfg text = Ok r
    /\ In (category r) (map fst (hits (normalize_text text) (taxonomy cfg)))
    /\ (forall c,
          match_count (normalize_text text) (taxonomy cfg) c
          <= match_count (normalize_text text) (taxonomy cfg) (category r))
    /\ confidence r
       = confidence_of
           (match_count (normalize_text text) (taxonomy cfg) (category r))
           (total_matches (normalize_text text) (taxonomy cfg))
    /\ needs_llm r = PyFloat.ltb (confidence r) (1 # 2)
    /\ matched_keywords r
       = category_hits (normalize_text text) (taxonomy cfg) (category r).
Proof.
  intros Hb Hne.
  set (n := normalize_text text) in *.
  set (tax := taxonomy cfg) in *.
  unfold classify_intake; rewrite Hb.
  fold n; fold tax.
  rewrite scan_taxonomy_tally, tally_keys.
  destruct (first_seen (map fst (hits n tax))) as [|k ks] eqn:Esc.
  - exfalso; apply Hne.
    destruct (hits n tax) as [|p ps]; [reflexivity | discriminate].
  - set (key := score_of (scores (tally (hits n tax) scan_empty))).
    assert (Hkey : forall c, key c = match_count n tax c)
      by (intros c; apply tally_score_of).
    destruct (max_from_spec key k ks) as (l1 & l2 & Heq & H1 & H2).
    set (w := max_from key k ks) in *.
    assert (Hw : In w (first_seen (map fst (hits n tax)))).
    { rewrite Esc, Heq; apply in_or_app; right; now left. }
    eexists; split; [reflexivity|]; simpl.
    split; [exact (first_seen_in _ _ Hw)|].
    split.
    { intros c.
      destruct (Z.eq_dec (match_count n tax c) 0) as [E0|Hpos].
      - rewrite E0; apply count_category_nonneg.
      - assert (Hin : In c (first_seen (map fst (hits n tax)))).
        { apply count_category_pos_in.
          pose proof (count_category_nonneg c (map fst (hits n tax))).
          unfold match_count in Hpos; lia. }
        rewrite Esc, Heq in Hin; rewrite <- !Hkey.
        apply in_app_or in Hin as [Hin|[<-|Hin]];
          [specialize (H1 c Hin) | | specialize (H2 c Hin)]; lia. }
    split; [unfold confidence_of; rewrite tally_sum, Hkey; reflexivity|].
    split; [reflexivity|].
    rewrite tally_matched; apply hits_of_category.
Qed.

Lemma category_hits_in (n : string) (tax : list TaxonomyEntry) (c : Category)
  (kw : string) :
  In kw (category_hits n tax c) ->
  keyword_matches n kw = true
  /\ exists e, In e tax /\ entry_id e = c /\ In kw (entry_keywords e).
Proof.
  unfold category_hits; intros H.
  apply in_flat_map in H as (e & He & H).
  destruct (category_eqb (entry_id e) c) eqn:E; [|destruct H].
  apply category_eqb_eq in E.
  unfold entry_hits in H; apply filter_In in H as [Hkw Hm].
  split; [exact Hm | exists e; auto].
Qed.

(** X6: The matched keywords of an answer are the matching keywords of the
    taxonomy entries whose id is the answer's category, in taxonomy
    order and with repetitions; their number is the match count of that
    category. *)
Theorem classify_intake_matched_keywords (cfg : Config) (text : string) :
  is_blank text = false ->
  exists r,
    classify_intake cfg text = Ok r
    /\ matched_keywords r
       = category_hits (normalize_text text) (taxonomy cfg) (category r)
    /\ Z.of_nat (List.length (matched_keywords r))
       = match_count (normalize_text text) (taxonomy cfg) (category r)
    /\ (forall kw, In kw (matched_keywords r) ->
          keyword_matches (normalize_text text) kw = true
          /\ exists e, In e (taxonomy cfg) /\ entry_id e = category r
                       /\ In kw (entry_keywords e)).
Proof.
  intros Hb.
  assert (H : exists r,
             classify_intake cfg text = Ok r
             /\ matched_keywords r
                = category_hits (normalize_text text) (taxonomy cfg)
                    (category r)).
  { destruct (hits (normalize_text text) (taxonomy cfg)) as [|p ps] eqn:E.
    - exists no_match_answer; split;
        [exact (classify_intake_hits_nil cfg text Hb E)|].
      rewrite <- hits_of_category, E; reflexivity.
    - destruct (classify_intake_scored cfg text Hb) as (r & Hr & H);
        [rewrite E; discriminate|].
      exists r; split; [exact Hr | apply H]. }
  destruct H as (r & Hr & Hm); exists r.
  split; [exact Hr|]; split; [exact Hm|]; rewrite Hm.
  split; [apply count_category_hits | intros kw; apply category_hits_in].
Qed.

Lemma classify_intake_matched_keywords_witness :
  is_blank "refund of an invoice after chest pain" = false
  /\ exists r,
       classify_intake Sample.healthcare
         "refund of an invoice after chest pain" = Ok r
       /\ matched_keywords r = ["invoice"; "refund"].
Proof.
  split; [reflexivity|].
  destruct (classify_intake_matched_keywords Sample.healthcare
              "refund of an invoice after chest pain" eq_refl)
    as (r & Hr & _).
  exists r; split; [exact Hr|].
  vm_compute in Hr; injection Hr as <-; reflexivity.
Defined.

(** X5: The classifier answers without a category, with confidence 0.0 and
    no matched keyword, exactly when no keyword of the taxonomy matches
    the text. *)
Theorem classify_intake_no_match_iff (cfg : Config) (text : string) :
  is_blank text = false ->
  classify_intake cfg text = Ok no_match_answer
  <-> (forall e kw, In e (taxonomy cfg) -> In kw (entry_keywords e) ->
         keyword_matches (normalize_text text) kw = false).
Proof.
  intros Hb; split.
  - intros Hc e kw He Hkw.
    destruct (keyword_matches (normalize_text text) kw) eqn:Hm;
      [exfalso|reflexivity].
    pose proof (hits_nonempty _ _ _ _ He Hkw Hm) as Hne.
    destruct (classify_intake_scored cfg text Hb Hne)
      as (r & Hr & Hin & _ & _ & _ & Hmk).
    rewrite Hc in Hr; injection Hr as <-; simpl in *.
    apply in_map_iff in Hin as ([c k] & Hc' & Hin); simpl in Hc'; subst c.
    assert (Hk : In k (category_hits (normalize_text text) (taxonomy cfg)
                         None)).
    { rewrite <- hits_of_category.
      apply in_map_iff; exists (None, k); split; [reflexivity|].
      apply filter_In; split; [exact Hin | reflexivity]. }
    rewrite <- Hmk in Hk; exact Hk.
  - intros H; apply classify_intake_hits_nil; [exact Hb|].
    apply hits_nil; exact H.
Qed.

Lemma classify_intake_no_match_iff_witness :
  is_blank "hello there" = false
  /\ classify_intake Sample.healthcare "hello there" = Ok no_match_answer.
Proof.
  split; [reflexivity|].
  apply (classify_intake_no_match_iff Sample.healthcare "hello there");
    [reflexivity|].
  intros e kw [<-|[<-|[]]] Hkw; simpl in Hkw;
    repeat (destruct Hkw as [<-|Hkw]; [reflexivity|]); destruct Hkw.
Defined.

(* ------------------------------------------------------------------ *)
(** ** The confidence as a rounded quotient *)


Lemma round_half_even_ge (num den c : Z) :
  0 < den -> c * den <= num -> c <= PyFloat.round_half_even num den.
Proof.
  intros Hden Hc; unfold PyFloat.round_half_even.
  assert (c <= num / den) by (apply Z.div_le_lower_bound; lia).
  destruct (_ || _); lia.
Qed.

Lemma truediv_expo (a b : Z) :
  0 < a <= b -> 52 <= PyFloat.expo (PyFloat.truediv a b).
Proof.
  intros Hab; unfold PyFloat.truediv; cbn [PyFloat.expo].
  pose proof (Z.log2_le_mono a b ltac:(lia)).
  destruct (_ <=? _); lia.
Qed.


(** A quotient of at least one half is reported as at least 0.50. *)
Lemma round2_truediv_half (a b : Z) :
  0 < a <= b -> b <= 2 * a -> 50 <= PyFloat.round2 (PyFloat.truediv a b).
Proof.
  intros Hab H2.
  pose proof (truediv_expo a b Hab) as He.
  unfold PyFloat.round2.
  set (x := PyFloat.truediv a b) in *.
  assert (Hm : PyFloat.mant x
               = PyFloat.round_half_even (a * 2 ^ PyFloat.expo x) b)
    by reflexivity.
  set (e := PyFloat.expo x) in *.
  assert (HE : 2 ^ e = 2 * 2 ^ (e - 1)).
  { rewrite <- Z.pow_succ_r by lia; f_equal; lia. }
  assert (HH : 0 < 2 ^ (e - 1)) by (apply Z.pow_pos_nonneg; lia).
  assert (Hge : 2 ^ (e - 1) <= PyFloat.mant x).
  { rewrite Hm; apply round_half_even_ge; nia. }
  apply round_half_even_ge; nia.
Qed.

(** A quotient of one is reported as 1.00. *)
Lemma round2_truediv_one (a : Z) :
  0 < a -> PyFloat.round2 (PyFloat.truediv a a) = 100.
Proof.
  intros Ha.
  pose proof (round2_truediv_bounds a a ltac:(lia)) as Hle.
  pose proof (truediv_expo a a ltac:(lia)) as He.
  enough (100 <= PyFloat.round2 (PyFloat.truediv a a)) by lia.
  unfold PyFloat.round2.
  set (x := PyFloat.truediv a a) in *.
  assert (Hm : PyFloat.mant x
               = PyFloat.round_half_even (a * 2 ^ PyFloat.expo x) a)
    by reflexivity.
  assert (HH : 0 < 2 ^ PyFloat.expo x) by (apply Z.pow_pos_nonneg; lia).
  assert (Hge : 2 ^ PyFloat.expo x <= PyFloat.mant x).
  { rewrite Hm; apply round_half_even_ge; nia. }
  apply round_half_even_ge; nia.
Qed.

Lemma total_matches_pos (n : string) (tax : list TaxonomyEntry) :
  0 < total_matches n tax -> hits n tax <> [].
Proof.
  unfold total_matches; destruct (hits n tax); simpl; [lia | discriminate].
Qed.

Lemma winner_count_range (n : string) (tax : list TaxonomyEntry)
  (c : Category) :
  In c (map fst (hits n tax)) ->
  0 < match_count n tax c <= total_matches n tax.
Proof.
  intros H; unfold match_count, total_matches; split.
  - now apply count_category_in.
  - rewrite <- (length_map fst); apply count_category_le_length.
Qed.

Lemma hundredths_not_below_half (k : Z) :
  50 <= k ->
  PyFloat.ltb (PyFloat.hundredths k) (1 # 2) = false
  /\ (1 # 2 <= PyFloat.hundredths k)%Q.
Proof.
  intros Hk.
  assert (Hle : (1 # 2 <= PyFloat.hundredths k)%Q)
    by (unfold PyFloat.hundredths, Qle; simpl; lia).
  split; [|exact Hle].
  destruct (PyFloat.ltb (PyFloat.hundredths k) (1 # 2)) eqn:E;
    [|reflexivity].
  apply ltb_lt in E; exfalso; exact (Qle_not_lt _ _ Hle E).
Qed.

(** X9: When the winning category holds at least half of all the matches the
    classifier does not ask for the LLM: a deferred answer with matches
    always has a winner with less than half of them. *)
Theorem classify_intake_majority (cfg : Config) (text : string) :
  is_blank text = false ->
  0 < total_matches (normalize_text text) (taxonomy cfg) ->
  exists r,
    classify_intake cfg text = Ok r
    /\ (total_matches (normalize_text text) (taxonomy cfg)
        <= 2 * match_count (normalize_text text) (taxonomy cfg) (category r)
        -> needs_llm r = false /\ (1 # 2 <= confidence r)%Q).
Proof.
  intros Hb Hpos.
  destruct (classify_intake_scored cfg text Hb (total_matches_pos _ _ Hpos))
    as (r & Hr & Hin & _ & Hconf & Hflag & _).
  exists r; split; [exact Hr|]; intros Hhalf.
  pose proof (winner_count_range _ _ _ Hin) as Hrange.
  rewrite Hflag, Hconf; unfold confidence_of.
  apply hundredths_not_below_half, round2_truediv_half; lia.
Qed.

Lemma classify_intake_majority_witness :
  is_blank "refund of an invoice after chest pain" = false
  /\ 0 < total_matches
           (normalize_text "refund of an invoice after chest pain")
           (taxonomy Sample.healthcare)
  /\ exists r,
       classify_intake Sample.healthcare
         "refund of an invoice after chest pain" = Ok r
       /\ needs_llm r = false.
Proof.
  split; [reflexivity|]; split; [reflexivity|].
  destruct (classify_intake_majority Sample.healthcare
              "refund of an invoice after chest pain" eq_refl eq_refl)
    as (r & Hr & H).
  exists r; split; [exact Hr|].
  apply H; vm_compute in Hr; injection Hr as <-.
  vm_compute; discriminate.
Defined.

(** X10: When all the matching keywords belong to entries of one category,
    that category wins with confidence 1.00 and the answer is not
    deferred. *)
Theorem classify_intake_unanimous (cfg : Config) (text : string)
  (c0 : Category) :
  is_blank text = false ->
  (exists e kw, In e (taxonomy cfg) /\ In kw (entry_keywords e)
                /\ keyword_matches (normalize_text text) kw = true) ->
  (forall e kw, In e (taxonomy cfg) -> In kw (entry_keywords e) ->
     keyword_matches (normalize_text text) kw = true -> entry_id e = c0) ->
  exists r,
    classify_intake cfg text = Ok r
    /\ category r = c0
    /\ confidence r = (100 # 100)%Q
    /\ needs_llm r = false.
Proof.
  intros Hb (e & kw & He & Hkw & Hm) Hall.
  pose proof (hits_nonempty _ _ _ _ He Hkw Hm) as Hne.
  destruct (classify_intake_scored cfg text Hb Hne)
    as (r & Hr & Hin & _ & Hconf & Hflag & _).
  assert (Hfst : forall c,
             In c (map fst (hits (normalize_text text) (taxonomy cfg))) ->
             c = c0).
  { intros c Hc; apply in_map_iff in Hc as ([c' k] & <- & Hc); simpl.
    unfold hits in Hc; apply in_flat_map in Hc as (e' & He' & Hc).
    apply in_map_iff in Hc as (k' & Hk' & Hc); injection Hk' as <- <-.
    unfold entry_hits in Hc; apply filter_In in Hc as [Hc1 Hc2].
    exact (Hall e' k' He' Hc1 Hc2). }
  assert (Hcount : match_count (normalize_text text) (taxonomy cfg)
                     (category r)
                   = total_matches (normalize_text text) (taxonomy cfg)).
  { unfold match_count, total_matches, count_category.
    rewrite filter_all, length_map; [reflexivity|].
    intros c Hc; apply category_eqb_eq.
    now rewrite (Hfst c Hc), (Hfst _ Hin). }
  pose proof (winner_count_range _ _ _ Hin) as Hrange.
  assert (Hone : confidence r = (100 # 100)%Q).
  { rewrite Hconf, Hcount; unfold confidence_of.
    rewrite round2_truediv_one by lia; reflexivity. }
  exists r; split; [exact Hr|]; split; [exact (Hfst _ Hin)|].
  split; [exact Hone|]; rewrite Hflag, Hone; reflexivity.
Qed.

Lemma classify_intake_unanimous_witness :
  is_blank Sample.chest_pain = false
  /\ exists r,
       classify_intake Sample.healthcare Sample.chest_pain = Ok r
       /\ category r = Some "emergency"
       /\ confidence r = (100 # 100)%Q
       /\ needs_llm r = false.
Proof.
  split; [reflexivity|].
  apply (classify_intake_unanimous Sample.healthcare Sample.chest_pain
           (Some "emergency") eq_refl).
  - exists {| entry_id := Some "emergency";
              entry_keywords := ["chest pain"; "!!!"] |}, "chest pain".
    split; [left; reflexivity|]; split; [left; reflexivity | reflexivity].
  - intros e kw [<-|[<-|[]]] Hkw Hm; [reflexivity|].
    simpl in Hkw; destruct Hkw as [<-|[<-|[]]]; discriminate Hm.
Defined.



Lemma classify_intake_confidence_range_witness :
  is_blank Sample.chest_pain = false
  /\ exists r k,
       classify_intake Sample.healthcare Sample.chest_pain = Ok r
       /\ 0 <= k <= 100
       /\ (confidence r == PyFloat.hundredths k)%Q
       /\ (0 <= confidence r <= 1)%Q.
Proof.
  split; [reflexivity|].
  apply (classify_intake_confidence_range Sample.healthcare
           Sample.chest_pain).
  reflexivity.
Defined.

(* ------------------------------------------------------------------ *)
(** ** [score_severity]: the scanned levels and the role of the category *)

Lemma dict_mem_keys {A : Type} (k : string) (d : dict string A) :
  dict_mem String.eqb k d = true <-> In k (keys d).
Proof.
  unfold dict_mem, keys; induction d as [|[k' a] r IH]; simpl.
  - split; [discriminate | tauto].
  - destruct (String.eqb k' k) eqn:E.
    + apply String.eqb_eq in E; tauto.
    + apply String.eqb_neq in E; rewrite IH; split; [tauto|].
      intros [H|H]; [contradiction | exact H].
Qed.

Lemma in_priority_order_iff (lvl : string) :
  in_priority_order lvl = true <-> In lvl priority_order.
Proof.
  unfold in_priority_order; rewrite existsb_exists; split.
  - intros (x & Hx & E); apply String.eqb_eq in E; now subst.
  - intros H; exists lvl; split; [exact H | apply String.eqb_refl].
Qed.

Lemma ordered_levels_in (rules : dict string SeverityRule) (lvl : string) :
  In lvl (ordered_levels rules) <-> In lvl (keys rules).
Proof.
  unfold ordered_levels; rewrite in_app_iff, !filter_In, dict_mem_keys.
  rewrite negb_true_iff, <- not_true_iff_false, in_priority_order_iff.
  destruct (in_priority_order lvl) eqn:E.
  - apply in_priority_order_iff in E; tauto.
  - assert (~ In lvl priority_order)
      by (rewrite <- in_priority_order_iff; congruence).
    tauto.
Qed.

Lemma priority_order_NoDup : NoDup priority_order.
Proof.
  unfold priority_order.
  repeat (constructor;
          [simpl; intros H;
           repeat (destruct H as [H|H]; [discriminate H|]); exact H|]).
  constructor.
Qed.

(** X11: Every declared level is scanned exactly once and no other level is:
    the scanning order is a rearrangement of the keys of the rule set. *)
Theorem ordered_levels_permutation (rules : dict string SeverityRule) :
  NoDup (keys rules) ->
  Permutation (ordered_levels rules) (keys rules).
Proof.
  intros Hnd; apply NoDup_Permutation; [|exact Hnd|].
  - unfold ordered_levels; apply NoDup_app.
    + apply NoDup_filter, priority_order_NoDup.
    + apply NoDup_filter, Hnd.
    + intros x H1 H2; apply filter_In in H1 as [H1 _], H2 as [_ H2].
      apply in_priority_order_iff in H1; rewrite H1 in H2; discriminate.
  - intros x; apply ordered_levels_in.
Qed.

Lemma ordered_levels_permutation_witness :
  NoDup (keys (severity_rules Sample.healthcare))
  /\ Permutation (ordered_levels (severity_rules Sample.healthcare))
       (keys (severity_rules Sample.healthcare)).
Proof.
  assert (H : NoDup (keys (severity_rules Sample.healthcare))).
  { simpl; constructor; [intros [H|[]]; discriminate|].
    constructor; [intros []|constructor]. }
  split; [exact H|].
  exact (ordered_levels_permutation (severity_rules Sample.healthcare) H).
Defined.

Lemma score_severity_unmatched (cfg : Config) (text : string)
  (c : Category) :
  is_blank text = false ->
  (forall lvl, In lvl (keys (severity_rules cfg)) ->
     level_matches (severity_rules cfg) (normalize_text text) lvl = false) ->
  score_severity cfg text c = Ok (unmatched_result c).
Proof.
  intros Hb Hnone.
  rewrite (score_severity_unfold cfg text c Hb).
  destruct (scan_levels_outcome (severity_rules cfg) (normalize_text text)
              (ordered_levels (severity_rules cfg)))
    as [l1 lvl l2 kw Heq _ Hin Hm | _]; [exfalso|reflexivity].
  assert (Hl : In lvl (keys (severity_rules cfg))).
  { apply ordered_levels_in; rewrite Heq.
    apply in_or_app; right; now left. }
  specialize (Hnone lvl Hl); unfold level_matches in Hnone.
  assert (existsb (keyword_matches (normalize_text text))
            (rule_keywords (rule_of (severity_rules cfg) lvl)) = true)
    by (apply existsb_exists; exists kw; auto).
  congruence.
Qed.

(** X12: The category plays a part only when no rule matches: as soon as some
    declared level has a matching keyword the answer is the same for
    every category, and when none has one the answer depends only on
    whether the category is the string [emergency]. *)
Theorem score_severity_category (cfg : Config) (text : string) :
  is_blank text = false ->
  ((exists lvl, In lvl (keys (severity_rules cfg))
                /\ level_matches (severity_rules cfg) (normalize_text text)
                     lvl = true) ->
   forall c1 c2, score_severity cfg text c1 = score_severity cfg text c2)
  /\ ((forall lvl, In lvl (keys (severity_rules cfg)) ->
         level_matches (severity_rules cfg) (normalize_text text) lvl
         = false) ->
      forall c, score_severity cfg text c = Ok (unmatched_result c)).
Proof.
  intros Hb; split.
  - intros (lvl & Hin & Hm) c1 c2.
    rewrite !(score_severity_unfold cfg text _ Hb).
    destruct (scan_levels_outcome (severity_rules cfg) (normalize_text text)
                (ordered_levels (severity_rules cfg)))
      as [l1 lvl' l2 kw _ _ _ _ | Hnone]; [reflexivity|].
    rewrite Hnone in Hm by (now apply ordered_levels_in); discriminate.
  - intros Hnone c; exact (score_severity_unmatched cfg text c Hb Hnone).
Qed.

Lemma score_severity_category_witness :
  is_blank Sample.chest_pain = false
  /\ score_severity Sample.healthcare Sample.chest_pain (Some "billing")
     = score_severity Sample.healthcare Sample.chest_pain None.
Proof.
  split; [reflexivity|].
  apply (score_severity_category Sample.healthcare Sample.chest_pain eq_refl).
  exists "critical"; split; [right; left; reflexivity | reflexivity].
Defined.

(* ------------------------------------------------------------------ *)
(** ** [route_case]: the fallback *)

(** X13: Below the minimum score of the override, a category that no routing
    rule names (an absent category included, unless a rule leaves its
    category out) goes to the default destination with priority LOW. *)
Theorem route_case_fallback (cfg : Config) (cat : Category) (sc : Z) :
  sc < int_or (min_score (severity_override (routing cfg))) 9 ->
  (forall rule, In rule (routes (routing cfg)) -> route_category rule <> cat) ->
  route_case cfg cat sc
  = Ok {| destination := default_destination (routing cfg);
          priority := "LOW";
          status := "Unknown category fallback" |}.
Proof.
  intros Hlt Hnone; unfold route_case.
  apply Z.leb_gt in Hlt; rewrite Hlt; f_equal.
  induction (routes (routing cfg)) as [|x l IH]; simpl; [reflexivity|].
  rewrite (proj2 (category_eqb_neq _ _) (Hnone x (or_introl eq_refl))).
  apply IH; intros rule Hr; apply Hnone; now right.
Qed.

Lemma route_case_fallback_witness :
  3 < int_or (min_score (severity_override (routing Sample.healthcare))) 9
  /\ route_case Sample.healthcare None 3
     = Ok {| destination := "General_Queue";
             priority := "LOW";
             status := "Unknown category fallback" |}.
Proof.
  split; [simpl; lia|].
  apply (route_case_fallback Sample.healthcare None 3); [simpl; lia|].
  intros rule [<-|[<-|[]]]; discriminate.
Defined.

Lemma route_by_rules_priority (dflt : string) (rules : list RoutingRule)
  (cat : Category) (sc : Z) :
  (priority (route_by_rules dflt rules cat sc) = "HIGH" /\ 7 <= sc)
  \/ (priority (route_by_rules dflt rules cat sc) = "NORMAL" /\ sc < 7)
  \/ priority (route_by_rules dflt rules cat sc) = "LOW".
Proof.
  induction rules as [|x l IH]; simpl; [auto|].
  destruct (category_eqb (route_category x) cat); [|exact IH].
  destruct (int_or (route_threshold x) 0 <=? sc); simpl; [|auto].
  destruct (7 <=? sc) eqn:E;
    [apply Z.leb_le in E | apply Z.leb_gt in E]; auto.
Qed.

(** X14: Below the minimum score of the override the priority is one of HIGH,
    NORMAL and LOW; HIGH is given only to scores of 7 or more and NORMAL
    only to scores below 7. *)
Theorem route_case_priority (cfg : Config) (cat : Category) (sc : Z) :
  sc < int_or (min_score (severity_override (routing cfg))) 9 ->
  exists r,
    route_case cfg cat sc = Ok r
    /\ ((priority r = "HIGH" /\ 7 <= sc)
        \/ (priority r = "NORMAL" /\ sc < 7)
        \/ priority r = "LOW").
Proof.
  intros Hlt; unfold route_case.
  apply Z.leb_gt in Hlt; rewrite Hlt.
  eexists; split; [reflexivity | apply route_by_rules_priority].
Qed.

Lemma route_case_priority_witness :
  7 < int_or (min_score (severity_override (routing Sample.healthcare))) 9
  /\ exists r,
       route_case Sample.healthcare (Some "billing") 7 = Ok r
       /\ priority r = "HIGH".
Proof.
  split; [simpl; lia|].
  destruct (route_case_priority Sample.healthcare (Some "billing") 7)
    as (r & Hr & _); [simpl; lia|].
  exists r; split; [exact Hr|].
  vm_compute in Hr; injection Hr as <-; reflexivity.
Defined.

(* ------------------------------------------------------------------ *)
(** ** [triage_intake]: how the tools compose *)

(** X15: A text that matches no keyword of the taxonomy is always deferred:
    the pipeline answers with [needs_llm] true and the classifier's
    no-match answer, whatever the severity rules and the routing are,
    and calls neither the scorer nor the router. *)
Theorem triage_intake_no_match (env : Env) (cfg : Config) (text : string) :
  is_blank text = false ->
  (forall e kw, In e (taxonomy cfg) -> In kw (entry_keywords e) ->
     keyword_matches (normalize_text text) kw = false) ->
  triage_intake env cfg text
  = (Ok (Deferred true
           "Keyword confidence low. LLM should classify category first."
           no_match_answer),
     [CallClassify text]).
Proof.
  intros Hb Hnone.
  unfold triage_intake, triage_pipeline, bind, invoke, ret.
  rewrite Hb, (classify_intake_hits_nil cfg text Hb (hits_nil _ _ Hnone)).
  reflexivity.
Qed.

Lemma triage_intake_no_match_witness :
  is_blank "hello there" = false
  /\ triage_intake Sample.env Sample.healthcare "hello there"
     = (Ok (Deferred true
              "Keyword confidence low. LLM should classify category first."
              no_match_answer),
        [CallClassify "hello there"]).
Proof.
  split; [reflexivity|].
  apply (triage_intake_no_match Sample.env Sample.healthcare "hello there");
    [reflexivity|].
  intros e kw [<-|[<-|[]]] Hkw; simpl in Hkw;
    repeat (destruct Hkw as [<-|Hkw]; [reflexivity|]); destruct Hkw.
Defined.

(** X17: The emergency escalation end to end: when the classifier settles on
    the category [emergency] and no severity rule matches, the severity
    is 9 / escalated, and with an override whose minimum score is at most
    9 (the default) the case goes to the override's destination with the
    override's priority. *)
Theorem triage_intake_emergency (env : Env) (cfg : Config) (text : string)
  (c : ClassificationResult) :
  is_blank text = false ->
  classify_intake cfg text = Ok c ->
  needs_llm c = false ->
  category c = Some "emergency" ->
  (forall lvl, In lvl (keys (severity_rules cfg)) ->
     level_matches (severity_rules cfg) (normalize_text text) lvl = false) ->
  int_or (min_score (severity_override (routing cfg))) 9 <= 9 ->
  exists details,
    fst (triage_intake env cfg text)
    = Ok (Resolved false text
            (getenv (ACTIVE_INDUSTRY env) "healthcare")
            (getenv (CONFIG_PATH env) "")
            {| summary_category := "emergency";
               severity_level := "escalated";
               severity_score := 9;
               summary_priority :=
                 str_or (override_priority (severity_override (routing cfg)))
                   "HIGH";
               summary_destination :=
                 str_or (override_destination
                           (severity_override (routing cfg)))
                   "High_Priority_Queue";
               summary_status := "Severity override" |}
            details).
Proof.
  intros Hb Hc Hn Hcat Hnone Hmin.
  pose proof (score_severity_unmatched cfg text (Some "emergency") Hb Hnone)
    as Hs.
  unfold triage_intake, triage_pipeline, bind, invoke, ret.
  rewrite Hb, Hc, Hn, Hcat, Hs; simpl.
  unfold route_case.
  apply Z.leb_le in Hmin; rewrite Hmin; simpl.
  eexists; reflexivity.
Qed.

Lemma triage_intake_emergency_witness :
  is_blank "chest pain today" = false
  /\ exists details,
       fst (triage_intake Sample.env Sample.healthcare "chest pain today")
       = Ok (Resolved false "chest pain today" "healthcare" ""
               {| summary_category := "emergency";
                  severity_level := "escalated";
                  severity_score := 9;
                  summary_priority := "HIGH";
                  summary_destination := "High_Priority_Queue";
                  summary_status := "Severity override" |}
               details).
Proof.
  split; [reflexivity|].
  apply (triage_intake_emergency Sample.env Sample.healthcare
           "chest pain today"
           {| category := Some "emergency";
              confidence := 100 # 100;
              matched_keywords := ["chest pain"];
              method := "keyword";
              needs_llm := false |}); try reflexivity.
  intros lvl [<-|[<-|[]]]; reflexivity.
Defined.

(* ------------------------------------------------------------------ *)
(** ** [load_config] *)

Lemma load_config_unfold (base_dir : string) (env : Env) (fs : FileSystem) :
  load_config base_dir env fs
  = let folder := fst (config_folder base_dir env) in
    let t := load_file "taxonomy.json" (path_join folder ["taxonomy.json"])
               (taxonomy_json fs (path_join folder ["taxonomy.json"]))
               (fun doc => get_default doc []) in
    let s := load_file "severity.yaml" (path_join folder ["severity.yaml"])
               (severity_yaml fs (path_join folder ["severity.yaml"]))
               (fun doc => get_default doc []) in
    let r := load_file "routing.json" (path_join folder ["routing.json"])
               (routing_json fs (path_join folder ["routing.json"]))
               (fun doc =>
                  {| default_destination :=
                       get_default (doc_default_destination doc)
                         "General_Queue";
                     severity_override :=
                       get_default (doc_severity_override doc)
                         default_override;
                     routes := get_default (doc_routes doc) [] |}) in
    ({| taxonomy := get_default (fst t) [];
        severity_rules := get_default (fst s) [];
        routing := get_default (fst r) (routing default_config) |},
     snd (config_folder base_dir env) :: snd t ++ snd s ++ snd r).
Proof.
  unfold load_config.
  destruct (config_folder base_dir env) as [folder info]; simpl.
  destruct (load_file "taxonomy.json" _ _ _) as [t l1].
  destruct (load_file "severity.yaml" _ _ _) as [s l2].
  destruct (load_file "routing.json" _ _ _) as [r l3].
  reflexivity.
Qed.

Lemma load_file_log {A B : Type} (name path : string) (read : FileRead A)
  (store : A -> B) :
  forallb is_error (snd (load_file name path read store)) = true
  /\ List.length (snd (load_file name path read store))
     = (if unavailable read then 1 else 0)%nat
  /\ (unavailable read = true -> fst (load_file name path read store) = None).
Proof.
  destruct read; simpl; repeat split; intros;
    first [reflexivity | discriminate].
Qed.

(** X18: Nothing fails silently: the log of a load is one info record followed
    by error records only, one for each of the three files that is
    missing or fails to load, and none for a file that loads. *)
Theorem load_config_log (base_dir : string) (env : Env) (fs : FileSystem) :
  exists msg errors,
    snd (load_config base_dir env fs) = LogInfo msg :: errors
    /\ forallb is_error errors = true
    /\ List.length errors
       = ((if unavailable
                (taxonomy_json fs
                   (path_join (fst (config_folder base_dir env))
                      ["taxonomy.json"])) then 1 else 0)
          + (if unavailable
                  (severity_yaml fs
                     (path_join (fst (config_folder base_dir env))
                        ["severity.yaml"])) then 1 else 0)
          + (if unavailable
                  (routing_json fs
                     (path_join (fst (config_folder base_dir env))
                        ["routing.json"])) then 1 else 0))%nat.
Proof.
  rewrite load_config_unfold; cbv zeta; cbn [snd].
  assert (Hinfo : exists msg, snd (config_folder base_dir env) = LogInfo msg).
  { unfold config_folder; destruct (truthy _); simpl; eexists; reflexivity. }
  destruct Hinfo as (msg & ->).
  exists msg; eexists; split; [reflexivity|].
  rewrite !forallb_app, !length_app.
  repeat match goal with
         | |- context [load_file ?n ?p ?r ?s] =>
             let H := fresh in
             pose proof (load_file_log n p r s) as H;
             destruct H as (-> & -> & _)
         end.
  split; [reflexivity | lia].
Qed.

(** X19: Each rule set degrades on its own.  When the taxonomy file is missing
    or fails to load, every valid text is classified without a category
    and deferred; when the severity file is, the scorer answers with its
    fallback; when the routing file is, scores from 9 go to the built-in
    override and all others to [General_Queue] with priority LOW. *)
Theorem load_config_degrades (base_dir : string) (env : Env)
  (fs : FileSystem) (text : string) :
  is_blank text = false ->
  (unavailable
     (taxonomy_json fs
        (path_join (fst (config_folder base_dir env)) ["taxonomy.json"]))
   = true ->
   get_taxonomy base_dir env fs = []
   /\ classify_intake (fst (load_config base_dir env fs)) text
      = Ok no_match_answer
   /\ triage_intake env (fst (load_config base_dir env fs)) text
      = (Ok (Deferred true
               "Keyword confidence low. LLM should classify category first."
               no_match_answer),
         [CallClassify text]))
  /\ (unavailable
        (severity_yaml fs
           (path_join (fst (config_folder base_dir env)) ["severity.yaml"]))
      = true ->
      get_severity_rules base_dir env fs = []
      /\ forall cat,
           score_severity (fst (load_config base_dir env fs)) text cat
           = Ok (unmatched_result cat))
  /\ (unavailable
        (routing_json fs
           (path_join (fst (config_folder base_dir env)) ["routing.json"]))
      = true ->
      get_routing_resource base_dir env fs = routing default_config
      /\ forall cat sc,
           route_case (fst (load_config base_dir env fs)) cat sc
           = Ok (if 9 <=? sc
                 then {| destination := "High_Priority_Queue";
                         priority := "HIGH";
                         status := "Severity override" |}
                 else {| destination := "General_Queue";
                         priority := "LOW";
                         status := "Unknown category fallback" |})).
Proof.
  intros Hb.
  unfold get_taxonomy, get_severity_rules, get_routing_resource.
  rewrite load_config_unfold; cbv zeta; cbn [fst].
  split; [|split]; intros Hu.
  - assert (Ht : forall cfg, taxonomy cfg = [] ->
                   classify_intake cfg text = Ok no_match_answer).
    { intros cfg Hnil; apply classify_intake_hits_nil; [exact Hb|].
      now rewrite Hnil. }
    match goal with
    | |- context [load_file "taxonomy.json" ?p ?r ?s] =>
        destruct (load_file_log "taxonomy.json" p r s) as (_ & _ & H);
        rewrite (H Hu)
    end.
    split; [reflexivity|]; split; [now apply Ht|].
    unfold triage_intake, triage_pipeline, bind, invoke, ret.
    rewrite Hb, Ht by reflexivity; reflexivity.
  - match goal with
    | |- context [load_file "severity.yaml" ?p ?r ?s] =>
        destruct (load_file_log "severity.yaml" p r s) as (_ & _ & H);
        rewrite (H Hu)
    end.
    split; [reflexivity|]; intros cat.
    apply score_severity_unmatched; [exact Hb | intros lvl []].
  - match goal with
    | |- context [load_file "routing.json" ?p ?r ?s] =>
        destruct (load_file_log "routing.json" p r s) as (_ & _ & H);
        rewrite (H Hu)
    end.
    split; [reflexivity|]; intros cat sc.
    unfold route_case; simpl.
    destruct (9 <=? sc); reflexivity.
Qed.

Lemma load_config_degrades_witness :
  is_blank Sample.chest_pain = false
  /\ classify_intake
       (fst (load_config "/srv"
               {| ACTIVE_INDUSTRY := Some "retail"; CONFIG_PATH := None |}
               sample_files))
       Sample.chest_pain
     = Ok no_match_answer.
Proof.
  split; [reflexivity|].
  apply (load_config_degrades "/srv"
           {| ACTIVE_INDUSTRY := Some "retail"; CONFIG_PATH := None |}
           sample_files Sample.chest_pain eq_refl).
  reflexivity.
Defined.

Lemma load_config_folder (b b' : string) (e e' : Env) (fs : FileSystem) :
  config_folder b e = config_folder b' e' ->
  load_config b e fs = load_config b' e' fs.
Proof. intros H; unfold load_config; now rewrite H. Qed.

Lemma chars_string_of_list (l : list ascii) :
  chars (string_of_list_ascii l) = l.
Proof. apply list_ascii_of_string_of_list_ascii. Qed.

Lemma lower_space (c : ascii) :
  Char.is_space (Char.lower c) = Char.is_space c.
Proof. destruct c as [[] [] [] [] [] [] [] []]; reflexivity. Qed.

Lemma lower_lower (c : ascii) : Char.lower (Char.lower c) = Char.lower c.
Proof. destruct c as [[] [] [] [] [] [] [] []]; reflexivity. Qed.

Lemma lstrip_lower (l : list ascii) : lstrip (lower l) = lower (lstrip l).
Proof.
  unfold lower; induction l as [|c l IH]; simpl; [reflexivity|].
  rewrite lower_space; destruct (Char.is_space c); [exact IH | reflexivity].
Qed.

Lemma strip_lower (l : list ascii) : strip (lower l) = lower (strip l).
Proof.
  unfold strip, rstrip.
  rewrite lstrip_lower.
  replace (rev (lower (lstrip l))) with (lower (rev (lstrip l)))
    by (unfold lower; apply map_rev).
  rewrite lstrip_lower; unfold lower; symmetry; apply map_rev.
Qed.

Lemma industry_normal_form (s : string) :
  str_lower (str_strip (str_lower (str_strip s))) = str_lower (str_strip s).
Proof.
  unfold str_lower, str_strip; rewrite !chars_string_of_list.
  rewrite strip_lower, strip_strip; f_equal.
  unfold lower; rewrite map_map.
  apply map_ext; intros c; apply lower_lower.
Qed.

(** X20: The profile name is read without regard to letter case and to
    surrounding whitespace, and an unset [ACTIVE_INDUSTRY] is the profile
    [healthcare]. *)
Theorem load_config_industry_name (base_dir : string) (ai : string)
  (cp : option string) (fs : FileSystem) :
  load_config base_dir {| ACTIVE_INDUSTRY := Some ai; CONFIG_PATH := cp |} fs
  = load_config base_dir
      {| ACTIVE_INDUSTRY := Some (str_lower (str_strip ai));
         CONFIG_PATH := cp |} fs
  /\ load_config base_dir {| ACTIVE_INDUSTRY := None; CONFIG_PATH := cp |} fs
     = load_config base_dir
         {| ACTIVE_INDUSTRY := Some "healthcare"; CONFIG_PATH := cp |} fs.
Proof.
  split; apply load_config_folder; unfold config_folder; simpl;
    [|reflexivity].
  now rewrite industry_normal_form.
Qed.

(** X21: A [CONFIG_PATH] that is not blank decides alone: the three files are
    read from that folder (trimmed), whatever [ACTIVE_INDUSTRY] and the
    directory of the script are. *)
Theorem load_config_config_path (cp : string) (fs : FileSystem) :
  is_blank cp = false ->
  forall base_dir base_dir' ai ai',
    fst (config_folder base_dir
           {| ACTIVE_INDUSTRY := ai; CONFIG_PATH := Some cp |})
    = str_strip cp
    /\ load_config base_dir
         {| ACTIVE_INDUSTRY := ai; CONFIG_PATH := Some cp |} fs
       = load_config base_dir'
           {| ACTIVE_INDUSTRY := ai'; CONFIG_PATH := Some cp |} fs.
Proof.
  intros Hb base_dir base_dir' ai ai'.
  assert (Ht : truthy (str_strip cp) = true).
  { unfold is_blank in Hb; unfold str_strip.
    destruct (strip (chars cp)); [discriminate | reflexivity]. }
  split; [|apply load_config_folder]; unfold config_folder; simpl;
    rewrite Ht; reflexivity.
Qed.

Lemma load_config_config_path_witness :
  is_blank " /srv/config/healthcare " = false
  /\ load_config "/opt/app"
       {| ACTIVE_INDUSTRY := Some "retail";
          CONFIG_PATH := Some " /srv/config/healthcare " |} sample_files
     = load_config "/srv"
         {| ACTIVE_INDUSTRY := None;
            CONFIG_PATH := Some " /srv/config/healthcare " |} sample_files.
Proof.
  split; [reflexivity|].
  apply (load_config_config_path " /srv/config/healthcare " sample_files
           eq_refl "/opt/app" "/srv" (Some "retail") None).
Defined.

(** X22: A [CONFIG_PATH] that is empty or whitespace only is as good as unset:
    the profile of [ACTIVE_INDUSTRY] is loaded. *)
Theorem load_config_blank_config_path (base_dir cp : string)
  (ai : option string) (fs : FileSystem) :
  is_blank cp = true ->
  load_config base_dir {| ACTIVE_INDUSTRY := ai; CONFIG_PATH := Some cp |} fs
  = load_config base_dir {| ACTIVE_INDUSTRY := ai; CONFIG_PATH := None |} fs.
Proof.
  intros Hb; apply load_config_folder; unfold config_folder; simpl.
  assert (Hs : str_strip cp = "").
  { unfold is_blank in Hb; unfold str_strip.
    destruct (strip (chars cp)); [reflexivity | discriminate]. }
  rewrite Hs; reflexivity.
Qed.

Lemma load_config_blank_config_path_witness :
  is_blank "   " = true
  /\ load_config "/srv"
       {| ACTIVE_INDUSTRY := None; CONFIG_PATH := Some "   " |} sample_files
     = load_config "/srv"
         {| ACTIVE_INDUSTRY := None; CONFIG_PATH := None |} sample_files.
Proof.
  split; [reflexivity|].
  apply (load_config_blank_config_path "/srv" "   " None sample_files).
  reflexivity.
Defined.

(** X23: The profile name is joined to the configuration directory with
    [os.path.join]: a name that starts with a slash replaces the
    directory, so the three files are read from that absolute path and
    not from below the script. *)
Theorem load_config_absolute_industry (ai : string) (fs : FileSystem) :
  prefix "/" (str_lower (str_strip ai)) = true ->
  forall base_dir base_dir',
    fst (config_folder base_dir
           {| ACTIVE_INDUSTRY := Some ai; CONFIG_PATH := None |})
    = str_lower (str_strip ai)
    /\ load_config base_dir
         {| ACTIVE_INDUSTRY := Some ai; CONFIG_PATH := None |} fs
       = load_config base_dir'
           {| ACTIVE_INDUSTRY := Some ai; CONFIG_PATH := None |} fs.
Proof.
  intros Hp base_dir base_dir'.
  assert (Hj : forall b, path_join b ["config"; str_lower (str_strip ai)]
                         = str_lower (str_strip ai)).
  { intros b; unfold path_join; simpl.
    unfold path_join2 at 1; now rewrite Hp. }
  split; [|apply load_config_folder]; unfold config_folder, getenv;
    cbn [CONFIG_PATH ACTIVE_INDUSTRY];
    change (truthy (str_strip "")) with false; cbv iota;
    rewrite !Hj; reflexivity.
Qed.

Lemma load_config_absolute_industry_witness :
  prefix "/" (str_lower (str_strip " /Srv/Config/Healthcare ")) = true
  /\ fst (config_folder "/opt/app"
            {| ACTIVE_INDUSTRY := Some " /Srv/Config/Healthcare ";
               CONFIG_PATH := None |})
     = "/srv/config/healthcare".
Proof.
  split; [reflexivity|].
  apply (load_config_absolute_industry " /Srv/Config/Healthcare "
           sample_files eq_refl "/opt/app" "/srv").
Defined.

(* ------------------------------------------------------------------ *)
(** ** The client: [safe_json_load] *)

Lemma chars_app (a b : string) : chars (a ++ b) = chars a ++ chars b.
Proof.
  unfold chars; induction a as [|c a IH]; simpl; [reflexivity|].
  now rewrite IH.
Qed.

Lemma strip_guarded (a z : ascii) (m : list ascii) :
  Char.is_space a = false -> Char.is_space z = false ->
  strip (a :: m ++ [z]) = a :: m ++ [z].
Proof.
  intros Ha Hz; unfold strip; simpl; rewrite Ha.
  apply rstrip_fix; intros c r H.
  change (a :: m ++ [z]) with ((a :: m) ++ [z]) in H.
  apply app_inj_tail in H as [_ <-]; exact Hz.
Qed.

Lemma lstrip_snoc_space (l : list ascii) (c : ascii) :
  Char.is_space c = true ->
  lstrip (l ++ [c])
  = if forallb Char.is_space l then [] else lstrip l ++ [c].
Proof.
  intros Hc; induction l as [|a l IH]; simpl.
  - now rewrite Hc.
  - destruct (Char.is_space a); simpl; [exact IH | reflexivity].
Qed.

Lemma strip_snoc_space (l : list ascii) (c : ascii) :
  Char.is_space c = true -> strip (l ++ [c]) = strip l.
Proof.
  intros Hc; unfold strip; rewrite (lstrip_snoc_space l c Hc).
  destruct (forallb Char.is_space l) eqn:E.
  - apply lstrip_nil_iff in E; now rewrite E.
  - unfold rstrip; rewrite rev_app_distr; simpl; now rewrite Hc.
Qed.

Lemma after_first_char (c : ascii) (pre rest : list ascii) :
  forallb (fun x => negb (Ascii.eqb c x)) pre = true ->
  after_first [c] (pre ++ c :: rest) = Some rest.
Proof.
  induction pre as [|a pre IH]; simpl.
  - intros _; now rewrite Ascii.eqb_refl.
  - intros H; apply andb_true_iff in H as [Ha H].
    apply negb_true_iff in Ha; rewrite Ha; exact (IH H).
Qed.

Lemma after_first_none (c : ascii) (s : list ascii) :
  forallb (fun x => negb (Ascii.eqb c x)) s = true ->
  after_first [c] s = None.
Proof.
  induction s as [|a s IH]; simpl; [reflexivity|].
  intros H; apply andb_true_iff in H as [Ha H].
  apply negb_true_iff in Ha; rewrite Ha; exact (IH H).
Qed.

Lemma before_last_fence (body : list ascii) :
  before_last fence (body ++ fence) = body.
Proof.
  unfold before_last; rewrite rev_app_distr; simpl.
  apply rev_involutive.
Qed.

Ltac list_assoc :=
  simpl; repeat first [rewrite <- app_assoc | rewrite <- app_comm_cons];
  simpl; reflexivity.

Lemma strip_fenced (body : list ascii) :
  strip (fence ++ body ++ fence) = fence ++ body ++ fence.
Proof.
  unfold strip; rewrite (lstrip_fix (fence ++ body ++ fence)).
  - apply rstrip_fix; intros c r H.
    replace (fence ++ body ++ fence)
      with ((fence ++ body ++ ["`"; "`"]%char) ++ ["`"%char]) in H
      by (unfold fence; list_assoc).
    apply app_inj_tail in H as [_ <-]; reflexivity.
  - intros c r H; unfold fence in H; simpl in H.
    injection H as <- _; reflexivity.
Qed.

(** X24: A reply wrapped in a code fence, with any language tag on the
    opening line, is parsed as its payload, trimmed; backquotes inside
    the payload do no harm, since the text is cut at the last fence. *)
Theorem safe_json_load_fenced (Json : Type)
  (json_loads : string -> option Json) (tag payload : string) :
  no_newline tag = true ->
  safe_json_load Json json_loads
    ("```" ++ tag ++ newline ++ payload ++ newline ++ "```")%string
  = json_loads (str_strip payload).
Proof.
  intros Htag; unfold safe_json_load.
  assert (Hc : chars ("```" ++ tag ++ newline ++ payload ++ newline ++ "```")
               = fence
                 ++ (chars tag ++ "010"%char :: chars payload ++ ["010"%char])
                 ++ fence).
  { rewrite !chars_app; unfold fence, newline; list_assoc. }
  rewrite Hc, strip_fenced.
  assert (Hp : strip_prefix fence
                 (fence
                  ++ (chars tag
                      ++ "010"%char :: chars payload ++ ["010"%char])
                  ++ fence) <> None)
    by (unfold fence; simpl; discriminate).
  destruct (strip_prefix fence _); [clear Hp | congruence].
  replace (fence
           ++ (chars tag ++ "010"%char :: chars payload ++ ["010"%char])
           ++ fence)
    with ((fence ++ chars tag)
          ++ "010"%char :: ((chars payload ++ ["010"%char]) ++ fence))
    by (unfold fence; list_assoc).
  change (chars newline) with ["010"%char].
  rewrite (after_first_char "010"%char (fence ++ chars tag)
             ((chars payload ++ ["010"%char]) ++ fence)).
  - rewrite before_last_fence, strip_snoc_space by reflexivity.
    reflexivity.
  - rewrite forallb_app; apply andb_true_iff; split;
      [reflexivity | exact Htag].
Qed.

Lemma safe_json_load_fenced_witness :
  no_newline "json" = true
  /\ safe_json_load nat (fun s => Some (String.length s))
       ("```" ++ "json" ++ newline ++ " {} " ++ newline ++ "```")%string
     = Some 2%nat.
Proof.
  split; [reflexivity|].
  exact (safe_json_load_fenced nat (fun s => Some (String.length s))
           "json" " {} " eq_refl).
Defined.

(** X25: A reply that opens a code fence and has no line break is given up:
    the answer is [None] and the parser is not called. *)
Theorem safe_json_load_fence_one_line (Json : Type)
  (json_loads : string -> option Json) (text : string) :
  strip_prefix fence (strip (chars text)) <> None ->
  no_newline text = true ->
  safe_json_load Json json_loads text = None.
Proof.
  intros Hf Hn; unfold safe_json_load.
  destruct (strip_prefix fence (strip (chars text))); [|congruence].
  change (chars newline) with ["010"%char].
  rewrite after_first_none; [reflexivity|].
  unfold no_newline in Hn; rewrite forallb_forall in *.
  intros c Hc; apply Hn.
  unfold strip, rstrip in Hc.
  apply in_rev in Hc.
  assert (Hsub : forall s x, In x (lstrip s) -> In x s).
  { intros s; induction s as [|a s IH]; simpl; [intros x []|].
    destruct (Char.is_space a); intros x Hx; [right; now apply IH | exact Hx]. }
  apply Hsub, in_rev, Hsub in Hc; exact Hc.
Qed.

Lemma safe_json_load_fence_one_line_witness :
  strip_prefix fence (strip (chars " ```{} ")) <> None
  /\ no_newline " ```{} " = true
  /\ safe_json_load nat (fun s => Some (String.length s)) " ```{} " = None.
Proof.
  assert (H : strip_prefix fence (strip (chars " ```{} ")) <> None)
    by (vm_compute; discriminate).
  split; [exact H|]; split; [reflexivity|].
  exact (safe_json_load_fence_one_line nat (fun s => Some (String.length s))
           " ```{} " H eq_refl).
Defined.

(* ------------------------------------------------------------------ *)
(** ** More text never loses a match *)

Lemma prefix_app (a r : string) : prefix a (a ++ r)%string = true.
Proof.
  induction a as [|c a IH]; simpl; [now destruct r|].
  destruct (ascii_dec c c); [exact IH | congruence].
Qed.

Lemma prefix_inv (a s : string) :
  prefix a s = true -> exists r, s = (a ++ r)%string.
Proof.
  revert s; induction a as [|c a IH]; intros s.
  - intros _; exists s; reflexivity.
  - destruct s as [|d s]; simpl; [discriminate|].
    destruct (ascii_dec c d) as [->|]; [|discriminate].
    intros H; destruct (IH s H) as (r & ->); exists r; reflexivity.
Qed.

Lemma py_in_unfold (sub s : string) :
  py_in sub s
  = prefix sub s
    || match s with
       | EmptyString => false
       | String _ s' => py_in sub s'
       end.
Proof. destruct s; reflexivity. Qed.

Lemma py_in_intro (sub pre post : string) :
  py_in sub (pre ++ sub ++ post)%string = true.
Proof.
  induction pre as [|c pre IH]; simpl.
  - rewrite py_in_unfold, prefix_app; reflexivity.
  - rewrite IH; apply orb_true_r.
Qed.

Lemma py_in_elim (sub s : string) :
  py_in sub s = true -> exists pre post, s = (pre ++ sub ++ post)%string.
Proof.
  induction s as [|c s IH]; rewrite py_in_unfold.
  - rewrite orb_false_r; intros H; apply prefix_inv in H as (r & ->).
    exists "", r; reflexivity.
  - intros H; apply orb_true_iff in H as [H|H].
    + apply prefix_inv in H as (r & ->); exists "", r; reflexivity.
    + destruct (IH H) as (pre & post & ->).
      exists (String c pre), post; reflexivity.
Qed.

Lemma string_of_list_app (a b : list ascii) :
  string_of_list_ascii (a ++ b)
  = (string_of_list_ascii a ++ string_of_list_ascii b)%string.
Proof. induction a as [|c a IH]; simpl; [reflexivity | now rewrite IH]. Qed.

Lemma lstrip_suffix (l : list ascii) : exists s, l = s ++ lstrip l.
Proof.
  induction l as [|a l (s & IH)]; simpl; [exists []; reflexivity|].
  destruct (Char.is_space a).
  - exists (a :: s); simpl; now rewrite <- IH.
  - exists []; reflexivity.
Qed.

Lemma rstrip_prefix (l : list ascii) : exists s, l = rstrip l ++ s.
Proof.
  unfold rstrip; destruct (lstrip_suffix (rev l)) as (s & H).
  exists (rev s).
  rewrite <- rev_app_distr, <- H; symmetry; apply rev_involutive.
Qed.

Lemma lstrip_before (p : list ascii) (c : ascii) (r : list ascii) :
  Char.is_space c = false -> exists p', lstrip (p ++ c :: r) = p' ++ c :: r.
Proof.
  intros Hc; induction p as [|a p (p' & IH)]; simpl.
  - rewrite Hc; exists []; reflexivity.
  - destruct (Char.is_space a); [exists p'; exact IH|].
    exists (a :: p); reflexivity.
Qed.

Lemma rstrip_after (z : list ascii) (c : ascii) (q : list ascii) :
  Char.is_space c = false ->
  exists q', rstrip ((z ++ [c]) ++ q) = (z ++ [c]) ++ q'.
Proof.
  intros Hc; unfold rstrip.
  rewrite !rev_app_distr; simpl.
  destruct (lstrip_before (rev q) c (rev z) Hc) as (p' & ->).
  exists (rev p').
  rewrite rev_app_distr; simpl; rewrite rev_involutive, <- app_assoc.
  reflexivity.
Qed.

(** The stripped middle part survives the stripping of the whole. *)
Lemma strip_infix (a x b : list ascii) :
  exists p q, strip (a ++ x ++ b) = p ++ strip x ++ q.
Proof.
  destruct (strip x) as [|c r] eqn:E.
  - exists [], (strip (a ++ x ++ b)); reflexivity.
  - pose proof (strip_head _ _ _ E) as Hc.
    assert (Hlast : exists z d, c :: r = z ++ [d] /\ Char.is_space d = false).
    { destruct (exists_last (l := c :: r)) as (z & d & Hz); [discriminate|].
      exists z, d; split; [exact Hz|].
      rewrite <- E in Hz; unfold strip in Hz; exact (rstrip_last _ _ _ Hz). }
    destruct Hlast as (z & d & Hz & Hd).
    destruct (lstrip_suffix x) as (s1 & H1).
    destruct (rstrip_prefix (lstrip x)) as (s2 & H2).
    fold (strip x) in H2; rewrite E in H2.
    assert (Hx : a ++ x ++ b = (a ++ s1) ++ c :: (r ++ s2 ++ b)).
    { rewrite H1, H2 at 1; list_assoc. }
    unfold strip at 1; rewrite Hx.
    destruct (lstrip_before (a ++ s1) c (r ++ s2 ++ b) Hc) as (p' & ->).
    replace (p' ++ c :: r ++ s2 ++ b)
      with ((((p' ++ z) ++ [d]) ++ (s2 ++ b)))
      by (change (c :: r ++ s2 ++ b) with ((c :: r) ++ s2 ++ b);
          rewrite Hz; list_assoc).
    destruct (rstrip_after (p' ++ z) d (s2 ++ b) Hd) as (q' & ->).
    exists p', q'; rewrite Hz; list_assoc.
Qed.

Lemma normalize_text_infix (a text b : string) :
  exists p q,
    normalize_text (a ++ text ++ b)
    = (p ++ normalize_text text ++ q)%string.
Proof.
  unfold normalize_text, lower, re_sub_non_word.
  rewrite !chars_app, !map_app.
  destruct (strip_infix (map Char.sub (map Char.lower (chars a)))
              (map Char.sub (map Char.lower (chars text)))
              (map Char.sub (map Char.lower (chars b)))) as (p & q & ->).
  exists (string_of_list_ascii p), (string_of_list_ascii q).
  now rewrite !string_of_list_app.
Qed.

Lemma string_app_assoc (a b c : string) :
  ((a ++ b) ++ c = a ++ b ++ c)%string.
Proof. induction a as [|x a IH]; simpl; [reflexivity | now rewrite IH]. Qed.

Lemma keyword_matches_extend (a text b kw : string) :
  keyword_matches (normalize_text text) kw = true ->
  keyword_matches (normalize_text (a ++ text ++ b)) kw = true.
Proof.
  unfold keyword_matches; intros H.
  apply andb_true_iff in H as [Ht Hin]; rewrite Ht; simpl.
  apply py_in_elim in Hin as (pre & post & Heq).
  destruct (normalize_text_infix a text b) as (p & q & ->).
  rewrite Heq.
  replace (p ++ (pre ++ normalize_text kw ++ post) ++ q)%string
    with ((p ++ pre) ++ normalize_text kw ++ (post ++ q))%string
    by (rewrite !string_app_assoc; reflexivity).
  apply py_in_intro.
Qed.

Lemma filter_length_mono {X : Type} (f g : X -> bool) (l : list X) :
  (forall x, f x = true -> g x = true) ->
  (List.length (filter f l) <= List.length (filter g l))%nat.
Proof.
  intros H; induction l as [|x l IH]; simpl; [lia|].
  destruct (f x) eqn:E.
  - rewrite (H x E); simpl; lia.
  - destruct (g x); simpl; lia.
Qed.

(** X3: Adding text before and after a text loses no match: a keyword that
    matches the text matches the longer text, and no category's match
    count goes down. *)
Theorem more_text_keeps_matches (a text b : string) :
  (forall kw,
     keyword_matches (normalize_text text) kw = true ->
     keyword_matches (normalize_text (a ++ text ++ b)) kw = true)
  /\ (forall tax c,
        match_count (normalize_text text) tax c
        <= match_count (normalize_text (a ++ text ++ b)) tax c).
Proof.
  split; [intros kw; apply keyword_matches_extend|].
  intros tax c; rewrite <- !count_category_hits.
  apply inj_le; unfold category_hits.
  induction tax as [|e t IH]; simpl; [lia|].
  rewrite !length_app.
  destruct (category_eqb (entry_id e) c); simpl; [|exact IH].
  pose proof (filter_length_mono
                (keyword_matches (normalize_text text))
                (keyword_matches (normalize_text (a ++ text ++ b)))
                (entry_keywords e)
                (fun kw => keyword_matches_extend a text b kw)) as Hm.
  unfold entry_hits in *; lia.
Qed.

(* ------------------------------------------------------------------ *)
(** ** Letter case *)

Lemma normalize_text_lower (s : string) :
  normalize_text (str_lower s) = normalize_text s.
Proof.
  unfold normalize_text, str_lower; rewrite chars_string_of_list.
  f_equal; f_equal; f_equal.
  unfold lower; rewrite map_map.
  apply map_ext; intros c; apply lower_lower.
Qed.

Lemma is_blank_lower (s : string) : is_blank (str_lower s) = is_blank s.
Proof.
  unfold is_blank, str_lower; rewrite chars_string_of_list, strip_lower.
  unfold lower; destruct (strip (chars s)); reflexivity.
Qed.

(** X2: Matching ignores letter case, of the text and of the keywords: the
    classifier and the scorer give the same answer for a text and for
    its lower-case form, and a keyword matches exactly when its
    lower-case form does. *)
Theorem matching_ignores_case (cfg : Config) (text : string) :
  classify_intake cfg (str_lower text) = classify_intake cfg text
  /\ (forall cat,
        score_severity cfg (str_lower text) cat
        = score_severity cfg text cat)
  /\ (forall normalized kw,
        keyword_matches normalized (str_lower kw)
        = keyword_matches normalized kw).
Proof.
  split; [|split].
  - unfold classify_intake.
    now rewrite is_blank_lower, normalize_text_lower.
  - intros cat; unfold score_severity.
    now rewrite is_blank_lower, normalize_text_lower.
  - intros n kw; unfold keyword_matches.
    now rewrite normalize_text_lower.
Qed.

(* ------------------------------------------------------------------ *)
(** ** [triage_intake]: when the pipeline decides locally *)

Lemma triage_intake_resolved (env : Env) (cfg : Config) (text : string)
  (c : ClassificationResult) :
  is_blank text = false ->
  classify_intake cfg text = Ok c ->
  needs_llm c = false ->
  exists d sc,
    triage_intake env cfg text
    = (Ok d,
       [CallClassify text;
        CallScoreSeverity text (category c);
        CallRouteCase (category c) sc])
    /\ decision_needs_llm d = false.
Proof.
  intros Hb Hc Hn.
  unfold triage_intake, triage_pipeline, bind, invoke, ret.
  rewrite Hb, Hc, Hn, (score_severity_unfold cfg text (category c) Hb).
  set (s := match scan_levels _ _ _ with
            | Some r => r
            | None => _
            end).
  destruct (route_case_ok cfg (category c) (score s)) as (r & ->).
  eexists; exists (score s); split; reflexivity.
Qed.

(** X16: When some category holds at least half of all the keyword matches,
    the pipeline decides locally: its answer has [needs_llm] false and it
    has called the classifier, the scorer and the router, once each and
    in that order. *)
Theorem triage_intake_majority (env : Env) (cfg : Config) (text : string)
  (c0 : Category) :
  is_blank text = false ->
  0 < total_matches (normalize_text text) (taxonomy cfg) ->
  total_matches (normalize_text text) (taxonomy cfg)
  <= 2 * match_count (normalize_text text) (taxonomy cfg) c0 ->
  exists d cat sc,
    triage_intake env cfg text
    = (Ok d,
       [CallClassify text; CallScoreSeverity text cat; CallRouteCase cat sc])
    /\ decision_needs_llm d = false.
Proof.
  intros Hb Hpos Hhalf.
  destruct (classify_intake_scored cfg text Hb (total_matches_pos _ _ Hpos))
    as (r & Hr & Hin & Hmax & Hconf & Hflag & _).
  pose proof (winner_count_range _ _ _ Hin) as Hrange.
  specialize (Hmax c0).
  assert (Hn : needs_llm r = false).
  { rewrite Hflag, Hconf; unfold confidence_of.
    apply hundredths_not_below_half, round2_truediv_half; lia. }
  destruct (triage_intake_resolved env cfg text r Hb Hr Hn)
    as (d & sc & Hd & Hl).
  exists d, (category r), sc; split; [exact Hd | exact Hl].
Qed.

Lemma triage_intake_majority_witness :
  is_blank "refund of an invoice after chest pain" = false
  /\ exists d cat sc,
       triage_intake Sample.env Sample.healthcare
         "refund of an invoice after chest pain"
       = (Ok d,
          [CallClassify "refund of an invoice after chest pain";
           CallScoreSeverity "refund of an invoice after chest pain" cat;
           CallRouteCase cat sc])
       /\ decision_needs_llm d = false.
Proof.
  split; [reflexivity|].
  apply (triage_intake_majority Sample.env Sample.healthcare
           "refund of an invoice after chest pain" (Some "billing"));
    try reflexivity.
  vm_compute; discriminate.
Defined.
